(** * Depthtection: candidate tracking, depth projection and point-cloud refinement

    A shallow embedding of [src/src/depthtection.cpp] (class [Depthtection]):
    the depth projector [get_point_from_depth], the detection handler
    [detectionCallback], the refiner [updateCandidateFromPointCloud] and the
    point-cloud handler [pointCloudCallback].

    Conventions of the embedding.
    - C++ [double] and [float] values are elements of a type [F] equipped with
      the operations of the class [Arith].  Two instances are given: IEEE-754
      binary64 with binary32 narrowing ([IEEE], on [spec_float]), which is the
      arithmetic the compiled code runs, and exact extended rationals
      ([Exact]), which has no rounding.
    - [shared_ptr<Candidate>] is an address into an object store ([heap]); a
      null pointer is [None].
    - A handler yields an [Outcome]: it returns, an exception escapes it, or
      it runs into undefined behaviour (out-of-range read, null dereference).
    - Log lines, publications and window updates are recorded as [Event]s. *)

From Stdlib Require Import ZArith QArith Qcanon SpecFloat Lia.
From stdpp Require Import base option list strings gmap.

Open Scope Z_scope.

(* ================================================================== *)
(** ** Arithmetic of the C++ scalar types *)
(* ================================================================== *)

(** The scalar operations the source applies to [double], [float] and [int]
    values.  A [float] is kept as the [double] of the same value, so the
    widening conversion is the identity and only narrowing ([to_float]) is an
    operation. *)
Class Arith (F : Type) := {
  of_int : Z -> F;              (* int -> double *)
  to_int : F -> option Z;       (* double -> int; [None] where C++ leaves it undefined *)
  to_float : F -> F;            (* double -> float *)
  fadd : F -> F -> F;
  fsub : F -> F -> F;
  fmul : F -> F -> F;
  fdiv : F -> F -> F;
  fopp : F -> F;
  feqb : F -> F -> bool;        (* == *)
  fltb : F -> F -> bool;        (* <  *)
  infinity : F;                 (* std::numeric_limits<float>::infinity() *)
  float_max : F;                (* std::numeric_limits<float>::max() *)
  isfinite : F -> bool;         (* std::isfinite *)
  fhalf : F                      (* the literal 0.5 *)
}.

(** [a > b] is [b < a]. *)
Definition fgtb {F} `{Arith F} (a b : F) : bool := fltb b a.

(** The two facts about [<] that the maximum scan of
    [updateCandidateFromPointCloud] relies on. *)
Class ArithOrder (F : Type) `{Arith F} : Prop := {
  fltb_irrefl : forall a : F, fltb a a = false;
  fltb_trans : forall a b c : F, fltb a b = true -> fltb b c = true -> fltb a c = true
}.

(* ================================================================== *)
(** ** Data model *)
(* ================================================================== *)

(** [cv::Mat] with elements of type [A], as the list of its rows. *)
Definition Mat (A : Type) : Type := list (list A).

(** [cv::Mat::empty()]: no element. *)
Definition mat_empty {A} (m : Mat A) : bool :=
  match concat m with
  | [] => true
  | _ :: _ => false
  end.

(** [m.at<A>(r, c)]; [None] stands for the out-of-range read, which OpenCV
    does not check. *)
Definition mat_at {A} (m : Mat A) (r c : Z) : option A :=
  if (r <? 0) || (c <? 0) then None
  else row ← m !! Z.to_nat r; row !! Z.to_nat c.

Record Vec3 (F : Type) := mkVec3 { vx : F; vy : F; vz : F }.
Arguments mkVec3 {F} _ _ _.
Arguments vx {F} _.
Arguments vy {F} _.
Arguments vz {F} _.

Record Header := mkHeader { frame_id : string; stamp : Z }.

(** [geometry_msgs::msg::PointStamped] *)
Record PointStamped (F : Type) := mkPointStamped {
  header : Header;
  point3 : Vec3 F
}.
Arguments mkPointStamped {F} _ _.
Arguments header {F} _.
Arguments point3 {F} _.

Section Projector.
Context {F : Type} `{Arith F}.

(** [cv::Point(x, y)] built from two doubles: both are converted to [int]. *)
Definition cv_Point (x y : F) : option (Z * Z) :=
  px ← to_int x; py ← to_int y; Some (px, py).

(** [get_point_from_depth], lines 194-215.  [point] is [(point.x, point.y)].
    The distortion coefficients [D] are not read. *)
Definition get_point_from_depth (depth_img : Mat F) (point : Z * Z)
    (K D : Mat F) : option (Vec3 F) :=
  depth ← mat_at depth_img (snd point) (fst point);
  if feqb depth (of_int 0) || feqb depth infinity then
    Some (mkVec3 (of_int 0) (of_int 0) (of_int 0))
  else
    cx ← mat_at K 0 2;
    cy ← mat_at K 1 2;
    fx ← mat_at K 0 0;
    fy ← mat_at K 1 1;
    let x := fdiv (fmul (fsub (of_int (fst point)) cx) depth) fx in
    let y := fdiv (fmul (fsub (of_int (snd point)) cy) depth) fy in
    let z := depth in
    Some (mkVec3 (to_float x) (to_float y) (to_float z)).

(** Reprojection of a sensor-frame point through the pinhole intrinsics,
    as the round-trip property of the specification writes it:
    [u' = x * fx / z + cx], [v' = y * fy / z + cy], [d' = z]. *)
Definition reproject (K : Mat F) (p : Vec3 F) : option (F * F * F) :=
  cx ← mat_at K 0 2;
  cy ← mat_at K 1 2;
  fx ← mat_at K 0 0;
  fy ← mat_at K 1 1;
  Some (fadd (fdiv (fmul (vx p) fx) (vz p)) cx,
        fadd (fdiv (fmul (vy p) fy) (vz p)) cy,
        vz p).
End Projector.

(* ================================================================== *)
(** ** External geometry: tf2 and Eigen *)
(* ================================================================== *)

(** What the handlers use of [tf2::Transform] and of Eigen's [norm()]. *)
Class Geometry (F : Type) := {
  Transform : Type;                            (* tf2::Transform *)
  tf_apply : Transform -> Vec3 F -> Vec3 F;    (* transform * v *)
  tf_origin : Transform -> Vec3 F;             (* getOrigin() *)
  norm : Vec3 F -> F                           (* Eigen::Vector3d::norm() *)
}.

(** Answer of [tfBuffer_->lookupTransform]: a transform, or a
    [tf2::TransformException] carrying its [what()] text. *)
Inductive TfResult (T : Type) :=
  | TfOk (t : T)
  | TfException (what : string).
Arguments TfOk {T} _.
Arguments TfException {T} _.

(* ================================================================== *)
(** ** Messages, candidates and the node state *)
(* ================================================================== *)

Inductive Phase :=
  | NO_DETECTION
  | VISUAL_DETECTION_WITHOUT_DEPTH
  | VISUAL_DETECTION_WITH_DEPTH
  | ONLY_DEPTH_DETECTION
  | TOO_NEAR_TO_DETECT.

#[export] Instance Phase_eq_dec : EqDecision Phase.
Proof. solve_decision. Defined.

Inductive Severity := INFO | WARN | ERROR.

Section Model.
Context {F : Type} `{Arith F} `{Geometry F}.

(** [vision_msgs] detection messages, reduced to the fields the node reads. *)
Record ObjectHypothesis := mkHypothesis { class_id : string; score : F }.

Record Detection2D := mkDetection {
  det_id : string;
  center_x : F;
  center_y : F;
  size_x : F;
  size_y : F;
  results : list ObjectHypothesis
}.

Record Detection2DArray := mkDetections {
  det_header : Header;
  detections : list Detection2D
}.

(** [sensor_msgs::msg::PointCloud2] after [pcl::fromROSMsg]: the header and
    the XYZ points. *)
Record PointCloud2 := mkCloud {
  cloud_header : Header;
  cloud_points : list (Vec3 F)
}.

Record CameraInfo := mkCameraInfo {
  info_k : list F;
  info_d : list F;
  info_width : Z;
  info_height : Z
}.

(** The colour image together with what has been drawn onto it. *)
Inductive Drawing :=
  | Rectangle (p1 p2 : Z * Z)
  | PutText (text : string) (org : Z * Z).

Record Image := mkImage { pixels : Mat (Z * Z * Z); drawn : list Drawing }.

(** Modelled from the spec: [candidate.hpp] is not among the sources.  A
    candidate has an integer id assigned at creation, a confidence, a class
    label and a timestamped position in the global frame; the constructor
    arguments, the members [confidence], [point], [class_name] and the
    accessors [x()], [y()], [z()], [getEigen()] are the ones the handlers
    use, the accessors reading and writing the position. *)
Record Candidate := mkCandidate {
  candidate_id : Z;
  confidence : F;
  class_name : string;
  point : PointStamped F
}.

Definition getEigen (c : Candidate) : Vec3 F := point3 (point c).

Definition set_xyz (c : Candidate) (p : Vec3 F) : Candidate :=
  mkCandidate (candidate_id c) (confidence c) (class_name c)
              (mkPointStamped (header (point c)) (mkVec3 (vx p) (vy p) (vz p))).

(** The members of [Depthtection] that the handlers read or write, and the
    object store [heap] behind the [Candidate::Ptr] values. *)
Record State := mkState {
  current_phase_ : Phase;
  K_ : Mat F;
  D_ : Mat F;
  imgSize_ : Z * Z;
  haveCalibration_ : bool;
  base_frame_ : string;
  show_detection_ : bool;
  rgb_img_ : Image;
  depth_img_ : Mat F;
  heap : list Candidate;
  candidates_ : list nat;
  best_candidate_ : option nat;
  n_images_without_detection_ : Z;
  new_detection_ : bool;
  target_detection_ : string
}.

Definition set_phase (ph : Phase) (st : State) : State :=
  mkState ph (K_ st) (D_ st) (imgSize_ st) (haveCalibration_ st)
    (base_frame_ st) (show_detection_ st) (rgb_img_ st) (depth_img_ st)
    (heap st) (candidates_ st) (best_candidate_ st)
    (n_images_without_detection_ st) (new_detection_ st) (target_detection_ st).

Definition set_calibration (k d : Mat F) (sz : Z * Z) (st : State) : State :=
  mkState (current_phase_ st) k d sz true
    (base_frame_ st) (show_detection_ st) (rgb_img_ st) (depth_img_ st)
    (heap st) (candidates_ st) (best_candidate_ st)
    (n_images_without_detection_ st) (new_detection_ st) (target_detection_ st).

Definition set_rgb_img (img : Image) (st : State) : State :=
  mkState (current_phase_ st) (K_ st) (D_ st) (imgSize_ st) (haveCalibration_ st)
    (base_frame_ st) (show_detection_ st) img (depth_img_ st)
    (heap st) (candidates_ st) (best_candidate_ st)
    (n_images_without_detection_ st) (new_detection_ st) (target_detection_ st).

Definition set_depth_img (img : Mat F) (st : State) : State :=
  mkState (current_phase_ st) (K_ st) (D_ st) (imgSize_ st) (haveCalibration_ st)
    (base_frame_ st) (show_detection_ st) (rgb_img_ st) img
    (heap st) (candidates_ st) (best_candidate_ st)
    (n_images_without_detection_ st) (new_detection_ st) (target_detection_ st).

Definition set_candidates (h : list Candidate) (cs : list nat) (st : State) : State :=
  mkState (current_phase_ st) (K_ st) (D_ st) (imgSize_ st) (haveCalibration_ st)
    (base_frame_ st) (show_detection_ st) (rgb_img_ st) (depth_img_ st)
    h cs (best_candidate_ st)
    (n_images_without_detection_ st) (new_detection_ st) (target_detection_ st).

Definition set_n_images (n : Z) (st : State) : State :=
  mkState (current_phase_ st) (K_ st) (D_ st) (imgSize_ st) (haveCalibration_ st)
    (base_frame_ st) (show_detection_ st) (rgb_img_ st) (depth_img_ st)
    (heap st) (candidates_ st) (best_candidate_ st)
    n (new_detection_ st) (target_detection_ st).

(** Dereference of a [Candidate::Ptr]. *)
Definition deref (st : State) (p : nat) : option Candidate := heap st !! p.

(** The candidates of the store, in the order of [candidates_]. *)
Definition stored (st : State) : list (option Candidate) :=
  map (deref st) (candidates_ st).

(** What a handler emits. *)
Inductive LogArg := ArgStr (s : string) | ArgNum (x : F).

Inductive Event :=
  | Log (sev : Severity) (fmt : string) (args : list LogArg)
  | LogOnce (sev : Severity) (fmt : string) (args : list LogArg)
  | Publish (topic : string) (hdr : Header) (pts : list (Vec3 F))
  | ShowImage (title : string) (img : Image).

(** How a handler ends. *)
Inductive Outcome :=
  | Returned (st : State) (ev : list Event)
  | Escaped (what : string) (st : State) (ev : list Event)
  | Undefined.

(** How one iteration of the detection loop ends: the loop goes on, or the
    handler is left. *)
Inductive Flow :=
  | Next (st : State) (ev : list Event)
  | Exit (o : Outcome).

Definition TfBuffer : Type := string -> string -> TfResult Transform.

(* ---------------------------------------------------------------- *)
(** *** Image and calibration handlers *)

(** [rgbImageCallback], lines 83-87, on the decoded image. *)
Definition rgbImageCallback (st : State) (img : Mat (Z * Z * Z)) : State :=
  set_rgb_img (mkImage img []) st.

(** [depthImageCallback], lines 89-93, on the decoded image. *)
Definition depthImageCallback (st : State) (img : Mat F) : State :=
  set_depth_img img st.

(** [cameraInfoCallback], lines 95-103. *)
Definition cameraInfoCallback (st : State) (msg : CameraInfo) : State :=
  if negb (haveCalibration_ st) then
    let k := info_k msg in
    set_calibration [take 3 k; take 3 (drop 3 k); take 3 (drop 6 k)]
                    (map (fun d => [d]) (info_d msg))
                    (info_width msg, info_height msg) st
  else st.

(* ---------------------------------------------------------------- *)
(** *** Detection handler *)

(** [extractEstimatedPoint], lines 171-182. *)
Definition extractEstimatedPoint (st : State) (depth_img : Mat F)
    (detection : Detection2D) : option (PointStamped F) :=
  c ← cv_Point (center_x detection) (center_y detection);
  p ← get_point_from_depth depth_img c (K_ st) (D_ st);
  Some (mkPointStamped (mkHeader "" 0) (mkVec3 (vx p) (vy p) (vz p))).

(** The overlay of lines 113-124. *)
Definition draw_detection (img : Image) (detection : Detection2D) : option Image :=
  let hw := fdiv (size_x detection) (of_int 2) in
  let hh := fdiv (size_y detection) (of_int 2) in
  p1 ← cv_Point (fsub (center_x detection) hw) (fsub (center_y detection) hh);
  p2 ← cv_Point (fadd (center_x detection) hw) (fadd (center_y detection) hh);
  Some (mkImage (pixels img)
                (drawn img ++ [Rectangle p1 p2; PutText (det_id detection) p1])).

Section Matcher.
(** [match_candidate] is declared in [candidate.hpp], which is not among
    the sources: it is a parameter of the detection handler.  It receives
    the store, the class, the point and the threshold, and answers a
    pointer to a stored candidate or null. *)
Variable match_candidate :
  list Candidate -> list nat -> string -> PointStamped F -> F -> option nat.

(** Lines 151-163: update of the matched candidate, or creation. *)
Definition detection_match_or_create (st : State) (detection : Detection2D)
    (hypothesis : ObjectHypothesis) (pt : PointStamped F) : Flow :=
  match match_candidate (heap st) (candidates_ st) (class_id hypothesis) pt (of_int 1) with
  | None =>
      let c := mkCandidate (Z.of_nat (length (candidates_ st)) + 1)
                           (score hypothesis) (class_id hypothesis) pt in
      Next (set_candidates (heap st ++ [c])
                           (candidates_ st ++ [length (heap st)]) st)
           [Log INFO "New candidate %s" [ArgStr (det_id detection)]]
  | Some p =>
      match deref st p with
      | None => Exit Undefined
      | Some c =>
          let c' := mkCandidate (candidate_id c)
                      (fdiv (fadd (confidence c) (score hypothesis)) (of_int 2))
                      (class_name c) pt in
          Next (set_candidates (<[p := c']> (heap st)) (candidates_ st) st)
               [Log INFO "Update candidate %s" [ArgStr (det_id detection)];
                Log INFO "Candidate %s" [ArgStr (class_name c')];
                Log INFO "Candidate point %f %f %f"
                    [ArgNum (vx (point3 pt)); ArgNum (vy (point3 pt));
                     ArgNum (vz (point3 pt))]]
      end
  end.

(** Lines 132-163: projection, transform to the global frame, matching. *)
Definition detection_process (tf : TfBuffer) (st : State) (hdr : Header)
    (detection : Detection2D) (hypothesis : ObjectHypothesis) : Flow :=
  let ev := [Log INFO "Detection %s" [ArgStr (det_id detection)]] in
  match extractEstimatedPoint st (depth_img_ st) detection with
  | None => Exit Undefined
  | Some pt =>
      match tf "earth" (frame_id hdr) with
      | TfException what =>
          Exit (Returned st (ev ++ [Log WARN "TF exception: %s" [ArgStr what]]))
      | TfOk transform =>
          let v := tf_apply transform (point3 pt) in
          let pt' := mkPointStamped (mkHeader "earth" (stamp hdr))
                                    (mkVec3 (vx v) (vy v) (vz v)) in
          match detection_match_or_create st detection hypothesis pt' with
          | Next st' ev' => Next st' (ev ++ ev')
          | Exit o => Exit o
          end
      end
  end.

(** One iteration of the loop of lines 112-164. *)
Definition detection_step (tf : TfBuffer) (st : State) (hdr : Header)
    (detection : Detection2D) : Flow :=
  match (if show_detection_ st
         then img ← draw_detection (rgb_img_ st) detection; Some (set_rgb_img img st)
         else Some st) with
  | None => Exit Undefined
  | Some st1 =>
      match results detection !! 0%nat with
      | None => Exit Undefined
      | Some r =>
          if negb (String.eqb (class_id r) (target_detection_ st1)) then Next st1 []
          else if negb (mat_empty (depth_img_ st1)) || negb (haveCalibration_ st1) then
            Exit (Returned st1 [Log WARN "No camera calibration available" []])
          else detection_process tf st1 hdr detection r
      end
  end.

Fixpoint detection_loop (tf : TfBuffer) (st : State) (hdr : Header)
    (ds : list Detection2D) : Flow :=
  match ds with
  | [] => Next st []
  | d :: ds' =>
      match detection_step tf st hdr d with
      | Exit o => Exit o
      | Next st1 ev1 =>
          match detection_loop tf st1 hdr ds' with
          | Next st2 ev2 => Next st2 (ev1 ++ ev2)
          | Exit (Returned st2 ev2) => Exit (Returned st2 (ev1 ++ ev2))
          | Exit (Escaped w st2 ev2) => Exit (Escaped w st2 (ev1 ++ ev2))
          | Exit Undefined => Exit Undefined
          end
      end
  end.

(** [detectionCallback], lines 105-169. *)
Definition detectionCallback (tf : TfBuffer) (st : State)
    (msg : Detection2DArray) : Outcome :=
  if mat_empty (pixels (rgb_img_ st)) then
    Returned st [Log WARN "No RGB image available" []]
  else
    match detection_loop tf st (det_header msg) (detections msg) with
    | Exit o => o
    | Next st' ev =>
        if show_detection_ st'
        then Returned st' (ev ++ [ShowImage "RGB Image" (rgb_img_ st')])
        else Returned st' ev
    end.
End Matcher.

(* ---------------------------------------------------------------- *)
(** *** Point-cloud handler *)

Definition vsub (a b : Vec3 F) : Vec3 F :=
  mkVec3 (fsub (vx a) (vx b)) (fsub (vy a) (vy b)) (fsub (vz a) (vz b)).

Definition finite3 (p : Vec3 F) : bool :=
  isfinite (vx p) && isfinite (vy p) && isfinite (vz p).

(** A [pcl::PointXYZ] built from three doubles: each is narrowed to float. *)
Definition PointXYZ (p : Vec3 F) : Vec3 F :=
  mkVec3 (to_float (vx p)) (to_float (vy p)) (to_float (vz p)).

(** The test of lines 277-289 on a global-frame point: it is kept when all
    its coordinates are finite and its distance to the candidate is not
    above 0.5. *)
Definition in_sphere (c : Candidate) (pointEarth : Vec3 F) : bool :=
  negb (fgtb (norm (vsub pointEarth (getEigen c))) fhalf).

(** The loop of lines 271-291.  [best] is what [best_candidate_] points to,
    [None] for a null pointer: the loop dereferences it at the first point
    whose global-frame coordinates are finite. *)
Fixpoint filter_cloud (earthTf : Transform) (best : option Candidate)
    (pts : list (Vec3 F)) : option (list (Vec3 F)) :=
  match pts with
  | [] => Some []
  | pointLidar :: rest =>
      let pointEarth := tf_apply earthTf pointLidar in
      if negb (finite3 pointEarth) then filter_cloud earthTf best rest
      else
        c ← best;
        if in_sphere c pointEarth
        then kept ← filter_cloud earthTf best rest; Some (PointXYZ pointEarth :: kept)
        else filter_cloud earthTf best rest
  end.

(** The scan of lines 229-236 from index [i] on: the index of the first
    point whose [z] exceeds every earlier one and the start value. *)
Fixpoint max_scan (pts : list (Vec3 F)) (i : nat) (max_z : F) (max_idx : nat) : nat :=
  match pts with
  | [] => max_idx
  | p :: rest =>
      if fgtb (vz p) max_z then max_scan rest (S i) (vz p) i
      else max_scan rest (S i) max_z max_idx
  end.

(** [updateCandidateFromPointCloud], lines 217-242.  The C++ function
    always returns [true]; [None] is the undefined read of [points[0]] of
    an empty cloud or the dereference of a dangling pointer. *)
Definition updateCandidateFromPointCloud (st : State) (candidate : nat)
    (cloud : list (Vec3 F)) : option State :=
  let st1 := set_n_images (if negb (new_detection_ st)
                           then n_images_without_detection_ st + 1
                           else 0) st in
  let max_idx := max_scan cloud 0 (fopp float_max) 0 in
  p ← cloud !! max_idx;
  c ← deref st1 candidate;
  Some (set_candidates (<[candidate := set_xyz c p]> (heap st1)) (candidates_ st1) st1).

(** [pointCloudCallback], lines 244-329. *)
Definition pointCloudCallback (tf : TfBuffer) (st : State) (msg : PointCloud2) : Outcome :=
  if bool_decide (current_phase_ st = VISUAL_DETECTION_WITH_DEPTH)
     || negb (bool_decide (current_phase_ st = ONLY_DEPTH_DETECTION))
  then Returned st []
  else
    let frame := frame_id (cloud_header msg) in
    let lookup_failed what :=
      Returned st [LogOnce ERROR "Could not transform %s to %s: %s"
                     [ArgStr "earth"; ArgStr frame; ArgStr what]] in
    match tf "earth" frame with
    | TfException what => lookup_failed what
    | TfOk earthTf =>
        match tf (base_frame_ st) frame with
        | TfException what => lookup_failed what
        | TfOk base_frame_Tf =>
            match filter_cloud earthTf (best_candidate_ st ≫= deref st)
                               (cloud_points msg) with
            | None => Undefined
            | Some cloud_filtered =>
                if (length cloud_filtered <? 20)%nat then Returned st []
                else
                  match best_candidate_ st with
                  | None => Undefined
                  | Some best =>
                      match updateCandidateFromPointCloud st best cloud_filtered with
                      | None => Undefined
                      | Some st1 =>
                          match tf "earth" (base_frame_ st1) with
                          | TfException what => Escaped what st1 []
                          | TfOk base_frame_respect_earth_tf =>
                              match deref st1 best with
                              | None => Undefined
                              | Some c =>
                                  let distance :=
                                    norm (vsub (getEigen c)
                                               (tf_origin base_frame_respect_earth_tf)) in
                                  if fltb distance fhalf then
                                    Returned (set_phase TOO_NEAR_TO_DETECT st1)
                                             [Log WARN "PHASE: TOO_NEAR_TO_DETECT" []]
                                  else
                                    Returned st1
                                      [Publish "cloud_filtered"
                                         (mkHeader "earth" (stamp (cloud_header msg)))
                                         cloud_filtered]
                              end
                          end
                      end
                  end
            end
        end
    end.

(** The point-cloud handler on a sequence of messages, each with the
    transform buffer as it is when the message is handled. *)
Fixpoint run_clouds (st : State) (msgs : list (TfBuffer * PointCloud2)) : Outcome :=
  match msgs with
  | [] => Returned st []
  | (tf, msg) :: rest =>
      match pointCloudCallback tf st msg with
      | Returned st1 ev1 =>
          match run_clouds st1 rest with
          | Returned st2 ev2 => Returned st2 (ev1 ++ ev2)
          | Escaped w st2 ev2 => Escaped w st2 (ev1 ++ ev2)
          | Undefined => Undefined
          end
      | o => o
      end
  end.

End Model.

Arguments ObjectHypothesis F : clear implicits.
Arguments Detection2D F : clear implicits.
Arguments Detection2DArray F : clear implicits.
Arguments PointCloud2 F : clear implicits.
Arguments CameraInfo F : clear implicits.
Arguments Candidate F : clear implicits.
Arguments State F : clear implicits.
Arguments LogArg F : clear implicits.
Arguments Event F : clear implicits.
Arguments Outcome F : clear implicits.
Arguments Flow F : clear implicits.
Arguments TfBuffer F {_}.

(* ================================================================== *)
(** ** IEEE-754 instance: binary64 doubles, binary32 floats *)
(* ================================================================== *)

Module IEEE.

Definition double : Type := spec_float.

(** Rounding of a binary64 value to binary32 (to nearest, ties to even). *)
Definition narrow (x : double) : spec_float :=
  match x with
  | S754_finite s m e => binary_round 24 128 s m e
  | _ => x
  end.

(** The binary64 representation of a binary32 value (exact). *)
Definition widen (x : spec_float) : double :=
  match x with
  | S754_finite s m e => binary_round 53 1024 s m e
  | _ => x
  end.

(** Truncation toward zero; undefined outside the range of a 32-bit [int]
    and on infinities and NaN. *)
Definition trunc (x : double) : option Z :=
  match x with
  | S754_zero _ => Some 0
  | S754_finite s m e =>
      let a := match e with
               | Zneg p => Z.shiftr (Zpos m) (Zpos p)
               | _ => Z.shiftl (Zpos m) e
               end in
      let z := if s then - a else a in
      if (- 2 ^ 31 <=? z) && (z <? 2 ^ 31) then Some z else None
  | _ => None
  end.

Definition finite (x : double) : bool :=
  match x with
  | S754_zero _ | S754_finite _ _ _ => true
  | _ => false
  end.

Definition d_of_Z (z : Z) : double := binary_normalize 53 1024 z 0 false.

#[export] Instance ieee_arith : Arith double := {|
  of_int := d_of_Z;
  to_int := trunc;
  to_float x := widen (narrow x);
  fadd := SFadd 53 1024;
  fsub := SFsub 53 1024;
  fmul := SFmul 53 1024;
  fdiv := SFdiv 53 1024;
  fopp := SFopp;
  feqb := SFeqb;
  fltb := SFltb;
  infinity := S754_infinity false;
  float_max := widen (SFmax_float 24 128);
  isfinite := finite;
  fhalf := SFdiv 53 1024 (d_of_Z 1) (d_of_Z 2)
|}.

End IEEE.

(* ================================================================== *)
(** ** The candidate matcher *)
(* ================================================================== *)

Section MatchCandidate.
Context {F : Type} `{Arith F} `{Geometry F}.

(** Modelled from the spec: [match_candidate] is defined in [candidate.hpp],
    which is not among the sources.  The specification has it scan all
    stored candidates and select the first one of the same class whose
    Euclidean distance between its current position and the point is below
    the threshold; no match is the null pointer. *)
Fixpoint match_candidate (objects : list (Candidate F)) (cands : list nat)
    (cls : string) (pt : PointStamped F) (threshold : F) : option nat :=
  match cands with
  | [] => None
  | p :: rest =>
      match objects !! p with
      | Some c =>
          if String.eqb (class_name c) cls
             && fltb (norm (vsub (getEigen c) (point3 pt))) threshold
          then Some p
          else match_candidate objects rest cls pt threshold
      | None => match_candidate objects rest cls pt threshold
      end
  end.
End MatchCandidate.

(* ================================================================== *)
(** ** Exact instance: extended rationals, no rounding *)
(* ================================================================== *)

Module Exact.
Local Open Scope Qc_scope.

Inductive xrat :=
  | Fin (q : Qc)
  | Inf (neg : bool)
  | NaN.

Definition qsign (q : Qc) : bool :=
  match Qccompare q 0 with Lt => true | _ => false end.

Definition xadd (a b : xrat) : xrat :=
  match a, b with
  | NaN, _ | _, NaN => NaN
  | Inf s1, Inf s2 => if Bool.eqb s1 s2 then a else NaN
  | Inf _, _ => a
  | _, Inf _ => b
  | Fin x, Fin y => Fin (x + y)
  end.

Definition xopp (a : xrat) : xrat :=
  match a with
  | NaN => NaN
  | Inf s => Inf (negb s)
  | Fin x => Fin (- x)
  end.

Definition xsub (a b : xrat) : xrat := xadd a (xopp b).

Definition xmul (a b : xrat) : xrat :=
  match a, b with
  | NaN, _ | _, NaN => NaN
  | Inf s1, Inf s2 => Inf (xorb s1 s2)
  | Inf s, Fin y | Fin y, Inf s =>
      if Qc_eq_dec y 0 then NaN else Inf (xorb s (qsign y))
  | Fin x, Fin y => Fin (x * y)
  end.

Definition xdiv (a b : xrat) : xrat :=
  match a, b with
  | NaN, _ | _, NaN => NaN
  | Inf _, Inf _ => NaN
  | Inf s, Fin y => Inf (xorb s (qsign y))
  | Fin _, Inf _ => Fin 0
  | Fin x, Fin y =>
      if Qc_eq_dec y 0
      then (if Qc_eq_dec x 0 then NaN else Inf (qsign x))
      else Fin (x / y)
  end.

Definition xcompare (a b : xrat) : option comparison :=
  match a, b with
  | NaN, _ | _, NaN => None
  | Inf s1, Inf s2 =>
      Some (match s1, s2 with
            | true, false => Lt
            | false, true => Gt
            | _, _ => Eq
            end)
  | Inf s, Fin _ => Some (if s then Lt else Gt)
  | Fin _, Inf s => Some (if s then Gt else Lt)
  | Fin x, Fin y => Some (Qccompare x y)
  end.

Definition xeqb (a b : xrat) : bool :=
  match xcompare a b with Some Eq => true | _ => false end.

Definition xltb (a b : xrat) : bool :=
  match xcompare a b with Some Lt => true | _ => false end.

Definition xtrunc (a : xrat) : option Z :=
  match a with
  | Fin q =>
      let z := Z.quot (Qnum q) (Zpos (Qden q)) in
      if ((- 2 ^ 31 <=? z) && (z <? 2 ^ 31))%Z then Some z else None
  | _ => None
  end.

Definition xfinite (a : xrat) : bool :=
  match a with Fin _ => true | _ => false end.

Definition x_of_Z (z : Z) : xrat := Fin (Q2Qc (inject_Z z)).

#[export] Instance exact_arith : Arith xrat := {|
  of_int := x_of_Z;
  to_int := xtrunc;
  to_float x := x;
  fadd := xadd;
  fsub := xsub;
  fmul := xmul;
  fdiv := xdiv;
  fopp := xopp;
  feqb := xeqb;
  fltb := xltb;
  infinity := Inf false;
  float_max := x_of_Z (2 ^ 128 - 2 ^ 104)%Z;
  isfinite := xfinite;
  fhalf := Fin (Q2Qc (1 # 2))
|}.

End Exact.

(* ================================================================== *)
(** ** tf2 and Eigen over IEEE doubles *)
(* ================================================================== *)

Module Tf2.
Import IEEE.

(** [tf2::Transform]: the rows of the rotation matrix and the origin. *)
Record t := mk {
  basis : Vec3 double * Vec3 double * Vec3 double;
  origin : Vec3 double
}.

Definition dot (a b : Vec3 double) : double :=
  fadd (fadd (fmul (vx a) (vx b)) (fmul (vy a) (vy b))) (fmul (vz a) (vz b)).

(** [Transform::operator*(const Vector3&)] *)
Definition apply (tr : t) (v : Vec3 double) : Vec3 double :=
  let '(r0, r1, r2) := basis tr in
  mkVec3 (fadd (dot r0 v) (vx (origin tr)))
         (fadd (dot r1 v) (vy (origin tr)))
         (fadd (dot r2 v) (vz (origin tr))).

(** [Eigen::Vector3d::norm()] *)
Definition eigen_norm (v : Vec3 double) : double :=
  SFsqrt 53 1024 (dot v v).

#[export] Instance geometry : Geometry double := {|
  Transform := t;
  tf_apply := apply;
  tf_origin := origin;
  norm := eigen_norm
|}.

Definition identity : t :=
  mk (mkVec3 (of_int 1) (of_int 0) (of_int 0),
      mkVec3 (of_int 0) (of_int 1) (of_int 0),
      mkVec3 (of_int 0) (of_int 0) (of_int 1))
     (mkVec3 (of_int 0) (of_int 0) (of_int 0)).

Definition translation (o : Vec3 double) : t :=
  mk (basis identity) o.
End Tf2.

(* ================================================================== *)
(** ** Predicates used to state the properties *)
(* ================================================================== *)

Section Predicates.
Context {F : Type} `{Arith F} `{Geometry F}.
Implicit Types (st : State F).

(** The global-frame points that pass the tests of lines 277-289 for the
    candidate [c]: all coordinates finite, and not farther than 0.5 from
    the candidate (the negation of the source's [norm > 0.5]). *)
Definition survivors (earthTf : Transform) (c : Candidate F)
    (pts : list (Vec3 F)) : list (Vec3 F) :=
  filter (fun pe => finite3 pe && in_sphere c pe = true)
         (map (tf_apply earthTf) pts).

(** State of the scan after the points [pre]: no point of [pre] has a
    [z] above [max_z], and [max_idx] is either the index of a point of
    [pre] whose [z] is [max_z], or still 0 with the start value. *)
Definition scan_inv (start : F) (pre : list (Vec3 F)) (max_z : F) (max_idx : nat) : Prop :=
  (forall q, q ∈ pre -> fgtb (vz q) max_z = false)
  /\ ((exists p, pre !! max_idx = Some p /\ vz p = max_z)
      \/ (max_idx = 0%nat /\ max_z = start)).

(** The stored candidates carry the ids 1, 2, ... in the order of
    [candidates_]. *)
Definition sequential_ids st : Prop :=
  forall i p, candidates_ st !! i = Some p ->
    exists c, deref st p = Some c /\ candidate_id c = Z.of_nat i + 1.

(** The state that one iteration can leave behind differs from the one it
    started from in the colour image at most. *)
Definition only_image_changed st st' : Prop :=
  exists img, st' = set_rgb_img img st.

(** A run that leaves the candidates as they were. *)
Definition flow_keeps_candidates st (f : Flow F) : Prop :=
  match f with
  | Next st' _ | Exit (Returned st' _) => only_image_changed st st'
  | Exit (Escaped _ _ _) => False
  | Exit Undefined => True
  end.

End Predicates.

(** Comparison of two positive finite floats: by exponent, then mantissa. *)
Definition cmp_finite (e1 : Z) (m1 : positive) (e2 : Z) (m2 : positive) : comparison :=
  match e1 ?= e2 with
  | Lt => Lt
  | Gt => Gt
  | Eq => Pos.compare_cont Eq m1 m2
  end.

(* ================================================================== *)
(** ** Concrete scenarios (IEEE arithmetic) *)
(* ================================================================== *)

Module Scenario.
Import IEEE Tf2.

(** Camera model [fx = fy = 500], [cx = 320], [cy = 240]. *)
Definition K0 : Mat double :=
  [[of_int 500; of_int 0; of_int 320];
   [of_int 0; of_int 500; of_int 240];
   [of_int 0; of_int 0; of_int 1]].

(** A 640 x 480 depth image with the same sample everywhere. *)
Definition depth_const (d : double) : Mat double := repeat (repeat d 640%nat) 480%nat.

Definition rgb0 : Image := mkImage [[(0, 0, 0)]] [].

Definition vec (x y z : double) : Vec3 double := mkVec3 x y z.

Definition zero3 : Vec3 double := vec (of_int 0) (of_int 0) (of_int 0).

(** A detection of class ["person"] centred at pixel [(u, v)]. *)
Definition person_at (u v : Z) (s : double) : Detection2D double :=
  mkDetection "7" (of_int u) (of_int v) (of_int 10) (of_int 10)
              [mkHypothesis "person" s].

Definition camera_header : Header := mkHeader "camera" 5.

Definition person_msg : Detection2DArray double :=
  mkDetections camera_header [person_at 320 240 (of_int 1)].

(** A node with calibration, a colour image and the depth image [depth],
    no candidate yet. *)
Definition node (ph : Phase) (depth : Mat double) : State double :=
  mkState ph K0 [] (640, 480) true "base_link" false rgb0 depth
          [] [] None 0 false "person".

(** Every frame resolves, with the identity transform. *)
Definition tf_identity : TfBuffer double := fun _ _ => TfOk identity.

(** As [tf_identity], except that nothing resolves from ["base_link"]. *)
Definition tf_no_base : TfBuffer double :=
  fun _ source =>
    if String.eqb source "base_link"
    then TfException "base_link: frame does not exist"
    else TfOk identity.

Definition earth_point (p : Vec3 double) : PointStamped double :=
  mkPointStamped (mkHeader "earth" 5) p.

(** One candidate, of class ["person"], at the origin of the global frame,
    which is also the best candidate. *)
Definition candidate1 : Candidate double :=
  mkCandidate 1 fhalf "person" (earth_point zero3).

Definition tracking (ph : Phase) (best : option nat) : State double :=
  mkState ph K0 [] (640, 480) true "base_link" false rgb0 []
          [candidate1] [0%nat] best 0 false "person".

(** The first [n] points of the column [(0, 0, i / 100)], as floats. *)
Definition column (n : nat) : list (Vec3 double) :=
  map (fun i => vec (of_int 0) (of_int 0)
                    (to_float (fdiv (of_int (Z.of_nat i)) (of_int 100))))
      (seq 0 n).

Definition lidar_cloud (pts : list (Vec3 double)) : PointCloud2 double :=
  mkCloud (mkHeader "lidar" 9) pts.

(** 25 points of the column, a point with an infinite coordinate and a
    point 3 units away. *)
Definition mixed_cloud : PointCloud2 double :=
  lidar_cloud (vec infinity (of_int 0) (of_int 0)
               :: vec (of_int 3) (of_int 0) (of_int 0)
               :: column 25).

Definition person_hypothesis : ObjectHypothesis double :=
  mkHypothesis "person" (of_int 1).

(** The observation 0.3 units from the origin. *)
Definition near_point : PointStamped double :=
  earth_point (vec (fdiv (of_int 3) (of_int 10)) (of_int 0) (of_int 0)).

End Scenario.

(** The scenario of the projector over the extended rationals. *)
Module ExactScenario.
Import Exact.

Definition K0_exact : Mat xrat :=
  [[of_int 500; of_int 0; of_int 320];
   [of_int 0; of_int 500; of_int 240];
   [of_int 0; of_int 0; of_int 1]].

Definition depth_const_exact (d : xrat) : Mat xrat :=
  repeat (repeat d 640%nat) 480%nat.

End ExactScenario.

(* ================================================================== *)
(** ** The rest of the node: windows, construction, dispatch, crops *)
(* ================================================================== *)

(** [rows] and [cols] of a [cv::Mat]. *)
Definition mat_rows {A} (m : Mat A) : Z := Z.of_nat (length m).

Definition mat_cols {A} (m : Mat A) : Z :=
  match m with
  | [] => 0
  | row :: _ => Z.of_nat (length row)
  end.

(** Every row has [c] elements, as in any [cv::Mat]. *)
Definition rectangular {A} (m : Mat A) (c : nat) : Prop :=
  Forall (fun row => length row = c) m.

(** The range of a 32-bit [int]. *)
Definition in_int_range (z : Z) : bool := (- 2 ^ 31 <=? z) && (z <? 2 ^ 31).

(** How a function that may throw or run into undefined behaviour ends. *)
Inductive Result (A : Type) :=
  | ResOk (a : A)
  | ResThrow
  | ResUndefined.
Arguments ResOk {A} _.
Arguments ResThrow {A}.
Arguments ResUndefined {A}.

(** *** [showImage], lines 9-18 *)

(** The calls into the OpenCV window system. *)
Inductive GuiCall :=
  | NamedWindow (title : string)
  | ResizeWindow (title : string) (width height : Z)
  | Imshow (title : string) (img : Image)
  | WaitKey (delay : Z).

(** [showImage]; [window_created] is its static map. *)
Definition showImage (window_created : gmap string bool) (title : string) (img : Image)
    : gmap string bool * list GuiCall :=
  match window_created !! title with
  | None =>
      (<[title := true]> window_created,
       [NamedWindow title;
        ResizeWindow title (mat_cols (pixels img)) (mat_rows (pixels img));
        Imshow title img; WaitKey 1])
  | Some _ => (window_created, [Imshow title img; WaitKey 1])
  end.

(** Successive calls of [showImage]. *)
Fixpoint show_images (window_created : gmap string bool) (shown : list (string * Image))
    : gmap string bool * list GuiCall :=
  match shown with
  | [] => (window_created, [])
  | (title, img) :: rest =>
      let '(w1, c1) := showImage window_created title img in
      let '(w2, c2) := show_images w1 rest in
      (w2, c1 ++ c2)
  end.

(** The calls that open the window [title], and those that size it. *)
Definition opens (title : string) (c : GuiCall) : bool :=
  match c with
  | NamedWindow t => String.eqb t title
  | _ => false
  end.

Definition sizes (title : string) (c : GuiCall) : option (Z * Z) :=
  match c with
  | ResizeWindow t w h => if String.eqb t title then Some (w, h) else None
  | _ => None
  end.

(** The images handed to [cv::imshow]. *)
Definition shows (c : GuiCall) : option (string * Image) :=
  match c with
  | Imshow t img => Some (t, img)
  | _ => None
  end.

(** The images of [shown] that go to the window [title]. *)
Definition shown_in (title : string) (shown : list (string * Image)) : list Image :=
  omap (fun e => if String.eqb (fst e) title then Some (snd e) else None) shown.

(** *** The constructor, lines 29-79 *)

(** [std::string::back()]; [None] on the empty string, where it is
    undefined. *)
Fixpoint back (s : string) : option Ascii.ascii :=
  match s with
  | EmptyString => None
  | String c EmptyString => Some c
  | String _ s' => back s'
  end.

(** [std::string::pop_back()] *)
Fixpoint pop_back (s : string) : string :=
  match s with
  | EmptyString => EmptyString
  | String c EmptyString => EmptyString
  | String c s' => String c (pop_back s')
  end.

(** The character ['/']. *)
Definition slash : Ascii.ascii := Ascii.ascii_of_nat 47.

(** The values [get_parameter] yields. *)
Record Parameters := mkParameters {
  camera_topic : string;
  detection_topic : string;
  computed_pose_topic : string;
  ground_truth_topic : string;
  base_frame : string;
  show_detection : bool
}.

(** The defaults of the [declare_parameter] calls. *)
Definition default_parameters : Parameters :=
  mkParameters "camera" "detection" "pose_computed" "" "base_link" false.

Inductive QoS := KeepLast (depth : Z) | SensorDataQoS.

(** The handlers of the class that take a message. *)
Inductive Callback :=
  | RgbImageCallback
  | DepthImageCallback
  | CameraInfoCallback
  | DetectionCallback
  | PointCloudCallback.

Record Subscription := mkSubscription {
  sub_topic : string;
  sub_qos : QoS;
  sub_callback : Callback
}.

(** What the constructor sets up. *)
Record Wiring := mkWiring {
  wired_base_frame : string;
  wired_show_detection : bool;
  subscriptions : list Subscription;
  pose_topic : string;
  pose_qos : QoS;
  startup_log : list string
}.

(** [Depthtection::Depthtection], lines 29-79. *)
Definition construct (p : Parameters) : option Wiring :=
  c ← back (camera_topic p);
  let camera_topic :=
    if Ascii.eqb c slash then pop_back (camera_topic p) else camera_topic p in
  Some (mkWiring (base_frame p) (show_detection p)
          ((if show_detection p
            then [mkSubscription (camera_topic +:+ "/image_raw") (KeepLast 10)
                                 RgbImageCallback]
            else [])
           ++ [mkSubscription (camera_topic +:+ "/depth") (KeepLast 10) DepthImageCallback;
               mkSubscription (camera_topic +:+ "/camera_info") SensorDataQoS
                              CameraInfoCallback;
               mkSubscription (detection_topic p) SensorDataQoS DetectionCallback])
          (computed_pose_topic p) (KeepLast 10)
          (if show_detection p
           then ["Show_detection enabled: Subscribing to " +:+ camera_topic]
           else [])).

Definition with_camera_topic (p : Parameters) (t : string) : Parameters :=
  mkParameters t (detection_topic p) (computed_pose_topic p) (ground_truth_topic p)
               (base_frame p) (show_detection p).

(** *** [cv::Mat::operator()(const Rect&)] *)

(** [a + b] on [int]; [None] on overflow. *)
Definition int_add (a b : Z) : option Z :=
  if in_int_range (a + b) then Some (a + b) else None.

(** The submatrix of the rectangle [(x, y, w, h)].  OpenCV asserts
    [0 <= x && 0 <= w && x + w <= cols && 0 <= y && 0 <= h && y + h <= rows]
    and throws otherwise. *)
Definition mat_roi {A} (m : Mat A) (x y w h : Z) : Result (Mat A) :=
  if negb ((0 <=? x) && (0 <=? w)) then ResThrow
  else match int_add x w with
       | None => ResUndefined
       | Some xw =>
           if negb ((xw <=? mat_cols m) && (0 <=? y) && (0 <=? h)) then ResThrow
           else match int_add y h with
                | None => ResUndefined
                | Some yh =>
                    if negb (yh <=? mat_rows m) then ResThrow
                    else ResOk (map (fun row => take (Z.to_nat w) (drop (Z.to_nat x) row))
                                    (take (Z.to_nat h) (drop (Z.to_nat y) m)))
                end
       end.

Section MoreModel.
Context {F : Type} `{Arith F} `{Geometry F}.

(** [cropImageWithDetection], lines 186-191: the four arguments of
    [cv::Rect] are converted to [int]. *)
Definition cropImageWithDetection {A} (img : Mat A) (detection : Detection2D F)
    : Result (Mat A) :=
  let width := size_x detection in
  let height := size_y detection in
  match to_int (fsub (center_x detection) (fdiv width (of_int 2))),
        to_int (fsub (center_y detection) (fdiv height (of_int 2))),
        to_int width, to_int height with
  | Some x, Some y, Some w, Some h => mat_roi img x y w h
  | _, _, _, _ => ResUndefined
  end.

(** The corners of the box that lines 117-119 draw for a detection. *)
Definition detection_box (detection : Detection2D F) : option ((Z * Z) * (Z * Z)) :=
  let hw := fdiv (size_x detection) (of_int 2) in
  let hh := fdiv (size_y detection) (of_int 2) in
  p1 ← cv_Point (fsub (center_x detection) hw) (fsub (center_y detection) hh);
  p2 ← cv_Point (fadd (center_x detection) hw) (fadd (center_y detection) hh);
  Some (p1, p2).

(** The rectangle and the label of a detection. *)
Definition overlay (entry : Detection2D F * ((Z * Z) * (Z * Z))) : list Drawing :=
  [Rectangle (fst (snd entry)) (snd (snd entry));
   PutText (det_id (fst entry)) (fst (snd entry))].

(** A detection whose first hypothesis is of another class than [target]. *)
Definition other_class (target : string) (detection : Detection2D F) : Prop :=
  exists r, results detection !! 0%nat = Some r /\ class_id r <> target.

(** What relates the state before a handler to the state after it: the
    phase is kept or goes from [ONLY_DEPTH_DETECTION] to
    [TOO_NEAR_TO_DETECT]; the best-candidate pointer, the settings and the
    flag [new_detection_] are kept; a calibration once present is kept. *)
Definition node_step (st st' : State F) : Prop :=
  (current_phase_ st' = current_phase_ st
   \/ (current_phase_ st = ONLY_DEPTH_DETECTION
       /\ current_phase_ st' = TOO_NEAR_TO_DETECT))
  /\ best_candidate_ st' = best_candidate_ st
  /\ (base_frame_ st', show_detection_ st', target_detection_ st', new_detection_ st')
     = (base_frame_ st, show_detection_ st, target_detection_ st, new_detection_ st)
  /\ (haveCalibration_ st = true ->
      (K_ st', D_ st', imgSize_ st', haveCalibration_ st')
      = (K_ st, D_ st, imgSize_ st, true)).

(** *** Dispatch of the inbound messages *)

(** An inbound message; detections and point clouds come with the transform
    buffer as it is when they are handled. *)
Inductive Message :=
  | RgbImageMsg (img : Mat (Z * Z * Z))
  | DepthImageMsg (img : Mat F)
  | CameraInfoMsg (info : CameraInfo F)
  | DetectionsMsg (tf : TfBuffer F) (msg : Detection2DArray F)
  | PointCloudMsg (tf : TfBuffer F) (msg : PointCloud2 F).

Section Dispatch.
Variable match_candidate :
  list (Candidate F) -> list nat -> string -> PointStamped F -> F -> option nat.

(** The handler of a message. *)
Definition handle (st : State F) (m : Message) : Outcome F :=
  match m with
  | RgbImageMsg img => Returned (rgbImageCallback st img) []
  | DepthImageMsg img => Returned (depthImageCallback st img) []
  | CameraInfoMsg info => Returned (cameraInfoCallback st info) []
  | DetectionsMsg tf msg => detectionCallback match_candidate tf st msg
  | PointCloudMsg tf msg => pointCloudCallback tf st msg
  end.

(** The handlers run to completion one after the other; the run ends where
    a handler does not return. *)
Fixpoint run (st : State F) (ms : list Message) : Outcome F :=
  match ms with
  | [] => Returned st []
  | m :: rest =>
      match handle st m with
      | Returned st1 ev1 =>
          match run st1 rest with
          | Returned st2 ev2 => Returned st2 (ev1 ++ ev2)
          | Escaped w st2 ev2 => Escaped w st2 (ev1 ++ ev2)
          | Undefined => Undefined
          end
      | o => o
      end
  end.
End Dispatch.

(** The handler a message goes to. *)
Definition callback_of (m : Message) : Callback :=
  match m with
  | RgbImageMsg _ => RgbImageCallback
  | DepthImageMsg _ => DepthImageCallback
  | CameraInfoMsg _ => CameraInfoCallback
  | DetectionsMsg _ _ => DetectionCallback
  | PointCloudMsg _ _ => PointCloudCallback
  end.

(** A message reaches the node only through a subscription bound to its
    handler. *)
Definition delivered (w : Wiring) (m : Message) : Prop :=
  callback_of m ∈ map sub_callback (subscriptions w).

End MoreModel.

Arguments Message F {_}.

(** More scenarios (IEEE arithmetic). *)
Module NodeScenario.
Import IEEE Tf2 Scenario.

(** A node without calibration and without images. *)
Definition fresh : State double :=
  mkState VISUAL_DETECTION_WITH_DEPTH [] [] (0, 0) false "base_link" false
          (mkImage [] []) [] [] [] None 0 false "person".

(** A calibrated node with a colour image and [show_detection_] set. *)
Definition viewer : State double :=
  mkState VISUAL_DETECTION_WITH_DEPTH K0 [] (640, 480) true "base_link" true rgb0 []
          [] [] None 0 false "person".

(** The calibration message of the camera [K0], and one of another camera. *)
Definition info0 : CameraInfo double := mkCameraInfo (concat K0) [] 640 480.

Definition info1 : CameraInfo double :=
  mkCameraInfo (map of_int [1; 2; 3; 4; 5; 6; 7; 8; 9]) [of_int 1] 10 10.

(** A 4 x 3 image whose sample at row [r], column [c] is [10 r + c]. *)
Definition ramp : Mat double :=
  map (fun r => map (fun c => of_int (10 * r + c)) [0; 1; 2; 3]) [0; 1; 2].

(** A detection of class ["car"] with an [s] x [s] box centred at [(u, v)]. *)
Definition car_at (u v s : Z) : Detection2D double :=
  mkDetection "3" (of_int u) (of_int v) (of_int s) (of_int s)
              [mkHypothesis "car" (of_int 1)].

(** A detection without any hypothesis. *)
Definition no_hypothesis : Detection2D double :=
  mkDetection "4" (of_int 1) (of_int 1) (of_int 2) (of_int 2) [].

(** No frame resolves. *)
Definition tf_none : TfBuffer double := fun _ _ => TfException "no such frame".

(** As [tf_identity], except that ["base_link"] as a target is displaced. *)
Definition tf_body_shifted : TfBuffer double :=
  fun target _ =>
    if String.eqb target "base_link"
    then TfOk (translation (vec (of_int 1) (of_int 2) (of_int 3)))
    else TfOk identity.

(** As [tf_identity], except that ["base_link"] is 3 units from the origin of
    the global frame. *)
Definition tf_base_far : TfBuffer double :=
  fun _ source =>
    if String.eqb source "base_link"
    then TfOk (translation (vec (of_int 3) (of_int 0) (of_int 0)))
    else TfOk identity.

End NodeScenario.

(* ================================================================== *)
(** ** Properties of the point-cloud handler *)
(* ================================================================== *)

Section PointCloudProperties.
Context {F : Type} `{Arith F} `{Geometry F}.
Implicit Types (st : State F) (tf : TfBuffer F) (msg : PointCloud2 F).

Lemma phase_guard st :
  bool_decide (current_phase_ st = VISUAL_DETECTION_WITH_DEPTH)
    || negb (bool_decide (current_phase_ st = ONLY_DEPTH_DETECTION)) = true
  <-> current_phase_ st <> ONLY_DEPTH_DETECTION.
Proof.
  destruct (current_phase_ st); cbn; split; intros; try done.
Qed.

Lemma pointCloudCallback_other_phase tf st msg :
  current_phase_ st <> ONLY_DEPTH_DETECTION ->
  pointCloudCallback tf st msg = Returned st [].
Proof.
  intros Hph. unfold pointCloudCallback.
  apply phase_guard in Hph. by rewrite Hph.
Qed.

Lemma pointCloudCallback_only_depth tf st msg :
  current_phase_ st = ONLY_DEPTH_DETECTION ->
  bool_decide (current_phase_ st = VISUAL_DETECTION_WITH_DEPTH)
    || negb (bool_decide (current_phase_ st = ONLY_DEPTH_DETECTION)) = false.
Proof. intros ->. reflexivity. Qed.

(** The loop builds the narrowed copies of the survivors, in order. *)
Lemma filter_cloud_survivors earthTf c pts :
  filter_cloud earthTf (Some c) pts = Some (map PointXYZ (survivors earthTf c pts)).
Proof.
  unfold survivors.
  induction pts as [|p rest IH]; [reflexivity|].
  cbn [filter_cloud map]. rewrite filter_cons.
  destruct (finite3 (tf_apply earthTf p)); cbn [negb andb].
  - cbn [mbind option_bind]. destruct (in_sphere c (tf_apply earthTf p)).
    + rewrite IH. cbn. rewrite decide_True by done. reflexivity.
    + rewrite IH. rewrite decide_False by done. reflexivity.
  - rewrite IH. rewrite decide_False by done. reflexivity.
Qed.

(** With a null best candidate the loop is defined only on clouds without
    any finite global-frame point. *)
Lemma filter_cloud_null earthTf pts :
  filter_cloud earthTf None pts =
    if forallb (fun p => negb (finite3 (tf_apply earthTf p))) pts
    then Some [] else None.
Proof.
  induction pts as [|p rest IH]; [reflexivity|].
  cbn [filter_cloud forallb].
  destruct (finite3 (tf_apply earthTf p)); cbn [negb andb]; [reflexivity|exact IH].
Qed.

(** ** C5 *)

(** C5. The point-cloud handler works only in phase [ONLY_DEPTH_DETECTION]:
    in every other phase it returns the state it was given, whatever the
    cloud and the transform buffer, and emits nothing; hence from any such
    phase, [TOO_NEAR_TO_DETECT] included, no sequence of point-cloud
    messages changes the phase, the best candidate or anything else. *)
Theorem pointcloud_gated_by_phase st :
  current_phase_ st <> ONLY_DEPTH_DETECTION ->
  (forall tf msg, pointCloudCallback tf st msg = Returned st [])
  /\ (forall msgs, run_clouds st msgs = Returned st []).
Proof.
  intros Hph. split.
  - intros tf msg. by apply pointCloudCallback_other_phase.
  - induction msgs as [|[tf msg] rest IH]; [reflexivity|].
    cbn [run_clouds]. rewrite pointCloudCallback_other_phase by done.
    rewrite IH. reflexivity.
Qed.

(** ** C6 *)

(** C6. In phase [ONLY_DEPTH_DETECTION], with both transforms of lines
    256-261 resolved, let [cloud_filtered] be the points that the filter of
    lines 271-291 keeps: for a best candidate [c], the points of
    [survivors] (all global-frame coordinates finite, not farther than 0.5
    from [c]).  When they are fewer than 20 the handler returns the state
    it was given (candidate position, phase and counters included) and
    emits no event: the filtered cloud is not published. *)
Theorem few_survivors_no_update tf st msg earthTf base_frame_Tf cloud_filtered :
  current_phase_ st = ONLY_DEPTH_DETECTION ->
  tf "earth" (frame_id (cloud_header msg)) = TfOk earthTf ->
  tf (base_frame_ st) (frame_id (cloud_header msg)) = TfOk base_frame_Tf ->
  filter_cloud earthTf (best_candidate_ st ≫= deref st) (cloud_points msg)
    = Some cloud_filtered ->
  (length cloud_filtered < 20)%nat ->
  (forall c, best_candidate_ st ≫= deref st = Some c ->
     cloud_filtered = map PointXYZ (survivors earthTf c (cloud_points msg)))
  /\ pointCloudCallback tf st msg = Returned st [].
Proof.
  intros Hph He Hb Hf Hlen. split.
  - intros c Hc. rewrite Hc, filter_cloud_survivors in Hf. congruence.
  - unfold pointCloudCallback.
    rewrite (pointCloudCallback_only_depth tf st msg Hph), He, Hb, Hf.
    apply Nat.ltb_lt in Hlen. by rewrite Hlen.
Qed.

(** ** The maximum scan *)

Lemma max_scan_bound pts : forall i max_z max_idx,
  (max_idx < i + length pts)%nat ->
  (max_scan pts i max_z max_idx < i + length pts)%nat.
Proof.
  induction pts as [|p rest IH]; intros i max_z max_idx Hlt; cbn [max_scan length] in *.
  - exact Hlt.
  - destruct (fgtb (vz p) max_z).
    + specialize (IH (S i) (vz p) i). lia.
    + specialize (IH (S i) max_z max_idx). lia.
Qed.

Lemma max_scan_lookup cloud max_z :
  cloud <> [] -> is_Some (cloud !! max_scan cloud 0 max_z 0).
Proof.
  intros Hne. apply lookup_lt_is_Some.
  apply (max_scan_bound cloud 0 max_z 0).
  destruct cloud; [done|cbn; lia].
Qed.

(** What the refiner does to the state when the candidate is live and the
    cloud is not empty. *)
Lemma updateCandidateFromPointCloud_defined st b c cloud :
  deref st b = Some c ->
  cloud <> [] ->
  exists p,
    cloud !! max_scan cloud 0 (fopp float_max) 0 = Some p
    /\ updateCandidateFromPointCloud st b cloud =
         Some (set_candidates (<[b := set_xyz c p]> (heap st)) (candidates_ st)
                 (set_n_images (if negb (new_detection_ st)
                                then n_images_without_detection_ st + 1
                                else 0) st)).
Proof.
  intros Hc Hne.
  destruct (max_scan_lookup cloud (fopp float_max) Hne) as [p Hp].
  exists p. split; [exact Hp|].
  unfold updateCandidateFromPointCloud. rewrite Hp. cbn [mbind option_bind].
  unfold deref in *. cbn [heap set_n_images]. rewrite Hc. reflexivity.
Qed.

Lemma deref_updated st b c c' n :
  deref st b = Some c ->
  deref (set_candidates (<[b := c']> (heap st)) (candidates_ st) (set_n_images n st)) b
    = Some c'.
Proof.
  unfold deref. cbn [heap set_candidates set_n_images]. intros Hc.
  apply list_lookup_insert_eq. by eapply lookup_lt_Some.
Qed.

(** When no point lies above the start value the scan keeps index 0. *)
Lemma max_scan_none_above pts : forall i max_z max_idx,
  (forall q, q ∈ pts -> fgtb (vz q) max_z = false) ->
  max_scan pts i max_z max_idx = max_idx.
Proof.
  induction pts as [|p rest IH]; intros i max_z max_idx Hle; cbn [max_scan].
  - reflexivity.
  - rewrite (Hle p) by left. apply IH.
    intros q Hq. apply Hle. by right.
Qed.

Section MaxScan.
Context `{!ArithOrder F}.

Lemma scan_inv_step start pre p max_z max_idx :
  scan_inv start pre max_z max_idx ->
  if fgtb (vz p) max_z
  then scan_inv start (pre ++ [p]) (vz p) (length pre)
  else scan_inv start (pre ++ [p]) max_z max_idx.
Proof.
  intros [Hmax Hidx]. destruct (fgtb (vz p) max_z) eqn:Hgt; split.
  - intros q Hq. apply elem_of_app in Hq as [Hq|Hq].
    + destruct (fgtb (vz q) (vz p)) eqn:Hqp; [|reflexivity].
      unfold fgtb in *. rewrite <- (Hmax q Hq). symmetry.
      by apply fltb_trans with (vz p).
    + apply list_elem_of_singleton in Hq as ->. apply fltb_irrefl.
  - left. exists p. split; [|reflexivity].
    rewrite lookup_app_r by lia. by rewrite Nat.sub_diag.
  - intros q Hq. apply elem_of_app in Hq as [Hq|Hq]; [by apply Hmax|].
    by apply list_elem_of_singleton in Hq as ->.
  - destruct Hidx as [(p0 & Hp0 & Hz)|Hstart]; [left|by right].
    exists p0. split; [|exact Hz]. by apply lookup_app_l_Some.
Qed.

Lemma max_scan_inv start pts : forall pre max_z max_idx,
  scan_inv start pre max_z max_idx ->
  exists M, scan_inv start (pre ++ pts) M (max_scan pts (length pre) max_z max_idx).
Proof.
  induction pts as [|p rest IH]; intros pre max_z max_idx Hinv; cbn [max_scan].
  - exists max_z. by rewrite app_nil_r.
  - pose proof (scan_inv_step start pre p max_z max_idx Hinv) as Hstep.
    replace (pre ++ p :: rest) with ((pre ++ [p]) ++ rest)
      by (by rewrite <- app_assoc).
    replace (S (length pre)) with (length (pre ++ [p]))
      by (rewrite length_app; cbn; lia).
    destruct (fgtb (vz p) max_z); by apply IH.
Qed.

(** The scan selects a point of maximal [z], as soon as some point lies
    above the start value. *)
Lemma max_scan_maximal start cloud q0 :
  q0 ∈ cloud ->
  fgtb (vz q0) start = true ->
  exists p, cloud !! max_scan cloud 0 start 0 = Some p
            /\ forall q, q ∈ cloud -> fgtb (vz q) (vz p) = false.
Proof.
  intros Hq0 Hgt.
  destruct (max_scan_inv start cloud [] start 0%nat) as (M & Hmax & Hidx).
  { split; [by intros q Hq; apply elem_of_nil in Hq|by right]. }
  cbn [app length] in *.
  destruct Hidx as [(p & Hp & Hz)|[_ ->]].
  - exists p. split; [exact Hp|]. rewrite Hz. exact Hmax.
  - by rewrite (Hmax q0 Hq0) in Hgt.
Qed.
End MaxScan.

(** ** C10 *)

(** The handler never assigns [best_candidate_]. *)
Lemma pointCloudCallback_best_candidate tf st msg :
  match pointCloudCallback tf st msg with
  | Returned st' _ | Escaped _ st' _ => best_candidate_ st' = best_candidate_ st
  | Undefined => True
  end.
Proof.
  unfold pointCloudCallback, updateCandidateFromPointCloud.
  repeat (case_match; simplify_option_eq; try done).
Qed.

(** With a live best candidate the handler is defined. *)
Lemma pointCloudCallback_defined tf st msg :
  is_Some (best_candidate_ st ≫= deref st) ->
  pointCloudCallback tf st msg <> Undefined.
Proof.
  intros [c Hc]. unfold pointCloudCallback.
  destruct (best_candidate_ st) as [b|] eqn:Hbest; [|done].
  cbn [mbind option_bind] in Hc. cbn [mbind option_bind]. rewrite Hc.
  destruct (_ || _); [done|].
  destruct (tf "earth" _) as [earthTf|]; [|done].
  destruct (tf (base_frame_ st) _) as [base_frame_Tf|]; [|done].
  rewrite filter_cloud_survivors.
  set (cloud := map PointXYZ (survivors earthTf c (cloud_points msg))).
  destruct (length cloud <? 20)%nat eqn:Hlen; [done|].
  destruct (updateCandidateFromPointCloud_defined st b c cloud Hc)
    as (p & _ & Hupd).
  { intros Hnil. by rewrite Hnil in Hlen. }
  rewrite Hupd. destruct (tf "earth" _); [|done].
  rewrite (deref_updated st b c _ _ Hc).
  by destruct (fltb _ _).
Qed.


(** ** C7 *)

(** The filtered cloud holds exactly the narrowed global-frame images of
    the points that are finite and not farther than 0.5 from the
    candidate. *)
Lemma elem_of_cloud_filtered earthTf c pts p :
  p ∈ map PointXYZ (survivors earthTf c pts) <->
  exists q, q ∈ pts
            /\ p = PointXYZ (tf_apply earthTf q)
            /\ finite3 (tf_apply earthTf q) = true
            /\ in_sphere c (tf_apply earthTf q) = true.
Proof.
  unfold survivors. rewrite list_elem_of_fmap. split.
  - intros (pe & -> & Hpe). apply list_elem_of_filter in Hpe as [Hkeep Hpe].
    apply list_elem_of_fmap in Hpe as (q & -> & Hq).
    apply andb_true_iff in Hkeep as [Hfin Hin]. by exists q.
  - intros (q & Hq & -> & Hfin & Hin). exists (tf_apply earthTf q).
    split; [reflexivity|]. apply list_elem_of_filter. split.
    + by rewrite Hfin, Hin.
    + apply list_elem_of_fmap. by exists q.
Qed.


End PointCloudProperties.

(* ================================================================== *)
(** ** Properties of the depth projector *)
(* ================================================================== *)

Section ProjectorProperties.
Context {F : Type} `{Arith F}.

(** The sentinel branch of lines 197-199. *)
Lemma get_point_from_depth_sentinel (depth_img : Mat F) u v K D d :
  mat_at depth_img v u = Some d ->
  feqb d (of_int 0) || feqb d infinity = true ->
  get_point_from_depth depth_img (u, v) K D
    = Some (mkVec3 (of_int 0) (of_int 0) (of_int 0)).
Proof.
  intros Hd Hs. unfold get_point_from_depth. cbn [fst snd].
  rewrite Hd. cbn [mbind option_bind]. by rewrite Hs.
Qed.

(** The pinhole branch of lines 205-214. *)
Lemma get_point_from_depth_formula (depth_img : Mat F) u v K D d cx cy fx fy :
  mat_at depth_img v u = Some d ->
  to_float d = d ->
  feqb d (of_int 0) = false ->
  feqb d infinity = false ->
  mat_at K 0 2 = Some cx ->
  mat_at K 1 2 = Some cy ->
  mat_at K 0 0 = Some fx ->
  mat_at K 1 1 = Some fy ->
  get_point_from_depth depth_img (u, v) K D
    = Some (mkVec3 (to_float (fdiv (fmul (fsub (of_int u) cx) d) fx))
                   (to_float (fdiv (fmul (fsub (of_int v) cy) d) fy))
                   d).
Proof.
  intros Hd Hfl Hz Hi Hcx Hcy Hfx Hfy.
  unfold get_point_from_depth. cbn [fst snd].
  rewrite Hd. cbn [mbind option_bind]. rewrite Hz, Hi. cbn [orb].
  rewrite Hcx, Hcy, Hfx, Hfy. cbn [mbind option_bind]. by rewrite Hfl.
Qed.

(** The depth component of the reprojection is the sample itself, in any
    arithmetic. *)
Lemma reproject_depth (depth_img : Mat F) u v K D d cx cy fx fy :
  mat_at depth_img v u = Some d ->
  to_float d = d ->
  feqb d (of_int 0) = false ->
  feqb d infinity = false ->
  mat_at K 0 2 = Some cx ->
  mat_at K 1 2 = Some cy ->
  mat_at K 0 0 = Some fx ->
  mat_at K 1 1 = Some fy ->
  exists u' v',
    get_point_from_depth depth_img (u, v) K D ≫= reproject K = Some (u', v', d).
Proof.
  intros Hd Hfl Hz Hi Hcx Hcy Hfx Hfy.
  rewrite (get_point_from_depth_formula depth_img u v K D d cx cy fx fy) by done.
  cbn [mbind option_bind]. unfold reproject.
  rewrite Hcx, Hcy, Hfx, Hfy. cbn [mbind option_bind vx vy vz]. eauto.
Qed.

Lemma mat_at_empty {A} (m : Mat A) r c : mat_empty m = true -> mat_at m r c = None.
Proof.
  unfold mat_empty, mat_at. intros He.
  destruct (_ || _); [reflexivity|].
  destruct (m !! Z.to_nat r) as [row|] eqn:Hrow; [|reflexivity].
  cbn [mbind option_bind].
  destruct (concat m) eqn:Hc; [|discriminate He].
  apply list_elem_of_lookup_2 in Hrow.
  destruct row as [|a row]; [apply lookup_nil|].
  assert (In a (concat m)) as Ha.
  { apply in_concat. exists (a :: row).
    split; [by apply list_elem_of_In|by left]. }
  rewrite Hc in Ha. destruct Ha.
Qed.

End ProjectorProperties.

(* ================================================================== *)
(** ** Properties of the detection handler *)
(* ================================================================== *)

Section DetectionProperties.
Context {F : Type} `{Arith F} `{Geometry F}.
Variable mc : list (Candidate F) -> list nat -> string -> PointStamped F -> F -> option nat.
Implicit Types (st : State F) (tf : TfBuffer F) (detection : Detection2D F).

Lemma vec3_eta (v : Vec3 F) : mkVec3 (vx v) (vy v) (vz v) = v.
Proof. by destruct v. Qed.

(** ** C4 *)

(** C4. When the matcher answers a stored candidate [c] (at address [p]),
    the handler sets its confidence to [(confidence c + score) / 2] and its
    position to the observed point, leaves every other candidate and the
    list [candidates_] as they are; when the matcher answers null, the
    handler appends one new candidate with id [candidates_.size() + 1],
    the observed score as confidence, the observed class and the observed
    point, so that the count grows by exactly one, the candidates already
    stored are untouched, and ids that were 1..n become 1..n+1. *)
Theorem match_updates_or_creates st detection hypothesis pt :
  (forall p c,
      mc (heap st) (candidates_ st) (class_id hypothesis) pt (of_int 1) = Some p ->
      deref st p = Some c ->
      exists st' ev,
        detection_match_or_create mc st detection hypothesis pt = Next st' ev
        /\ deref st' p
           = Some (mkCandidate (candidate_id c)
                     (fdiv (fadd (confidence c) (score hypothesis)) (of_int 2))
                     (class_name c) pt)
        /\ (forall q, q <> p -> deref st' q = deref st q)
        /\ candidates_ st' = candidates_ st
        /\ (sequential_ids st -> sequential_ids st'))
  /\ (mc (heap st) (candidates_ st) (class_id hypothesis) pt (of_int 1) = None ->
      exists st' ev,
        detection_match_or_create mc st detection hypothesis pt = Next st' ev
        /\ candidates_ st' = candidates_ st ++ [length (heap st)]
        /\ length (candidates_ st') = S (length (candidates_ st))
        /\ deref st' (length (heap st))
           = Some (mkCandidate (Z.of_nat (length (candidates_ st)) + 1)
                     (score hypothesis) (class_id hypothesis) pt)
        /\ (forall q c, deref st q = Some c -> deref st' q = Some c)
        /\ (sequential_ids st ->
            sequential_ids st'
            /\ forall i p c, candidates_ st !! i = Some p -> deref st p = Some c ->
                 candidate_id c <> Z.of_nat (length (candidates_ st)) + 1)).
Proof.
  split.
  - intros p c Hm Hc. unfold detection_match_or_create. rewrite Hm, Hc.
    eexists _, _. split; [reflexivity|].
    unfold deref in *. cbn [heap candidates_ set_candidates].
    pose proof (lookup_lt_Some _ _ _ Hc) as Hlt.
    split; [by apply list_lookup_insert_eq|].
    split; [by intros q Hq; apply list_lookup_insert_ne|].
    split; [reflexivity|].
    intros Hseq i p' Hi. destruct (Hseq i p' Hi) as (c0 & Hc0 & Hid).
    unfold deref in *. cbn [heap set_candidates].
    destruct (decide (p' = p)) as [->|Hne].
    + rewrite list_lookup_insert_eq by done. eexists. split; [reflexivity|].
      cbn [candidate_id]. congruence.
    + rewrite list_lookup_insert_ne by done. eauto.
  - intros Hm. unfold detection_match_or_create. rewrite Hm.
    eexists _, _. split; [reflexivity|].
    unfold deref. cbn [heap candidates_ set_candidates].
    split; [reflexivity|].
    split; [rewrite length_app; cbn; lia|].
    split; [by rewrite lookup_app_r, Nat.sub_diag by lia|].
    split; [by intros q c Hq; apply lookup_app_l_Some|].
    intros Hseq. split.
    + intros i p Hi. unfold deref. cbn [heap set_candidates].
      apply lookup_app_Some in Hi as [Hi|[Hge Hi]].
      * destruct (Hseq i p Hi) as (c & Hc & Hid).
        exists c. split; [by apply lookup_app_l_Some|exact Hid].
      * apply list_lookup_singleton_Some in Hi as [Hi <-].
        rewrite lookup_app_r, Nat.sub_diag by lia.
        eexists. split; [reflexivity|]. cbn [candidate_id]. f_equal. lia.
    + intros i p c Hi Hc. destruct (Hseq i p Hi) as (c0 & Hc0 & Hid).
      assert (c0 = c) as -> by (unfold deref in *; congruence).
      apply lookup_lt_Some in Hi. lia.
Qed.

(** ** C3 *)


(** ** The guards of the detection handler (C1) *)

(** With an empty depth image the projection reads outside the image. *)
Lemma detection_process_empty_depth tf st hdr detection hypothesis :
  mat_empty (depth_img_ st) = true ->
  detection_process mc tf st hdr detection hypothesis = Exit Undefined.
Proof.
  intros He. unfold detection_process, extractEstimatedPoint.
  destruct (cv_Point _ _) as [[u v]|]; [|reflexivity].
  cbn [mbind option_bind]. unfold get_point_from_depth.
  by rewrite (mat_at_empty _ _ _ He).
Qed.

Lemma only_image_changed_refl st : only_image_changed st st.
Proof. exists (rgb_img_ st). by destruct st. Qed.

Lemma only_image_changed_trans st1 st2 st3 :
  only_image_changed st1 st2 -> only_image_changed st2 st3 ->
  only_image_changed st1 st3.
Proof. intros [i1 ->] [i2 ->]. by exists i2. Qed.

Lemma detection_step_keeps_candidates tf st hdr detection :
  flow_keeps_candidates st (detection_step mc tf st hdr detection).
Proof.
  unfold detection_step.
  assert (forall st1, only_image_changed st st1 ->
            flow_keeps_candidates st
              match results detection !! 0%nat with
              | Some r =>
                  if negb (String.eqb (class_id r) (target_detection_ st1))
                  then Next st1 []
                  else if negb (mat_empty (depth_img_ st1)) || negb (haveCalibration_ st1)
                       then Exit (Returned st1 [Log WARN "No camera calibration available" []])
                       else detection_process mc tf st1 hdr detection r
              | None => Exit Undefined
              end) as Hbody.
  { intros st1 Hst1. destruct (results detection !! 0%nat) as [r|]; [|done].
    destruct (negb (String.eqb _ _)); [done|].
    destruct (mat_empty (depth_img_ st1)) eqn:He; cbn [negb orb]; [|done].
    destruct (negb (haveCalibration_ st1)); [done|].
    by rewrite detection_process_empty_depth. }
  destruct (show_detection_ st).
  - destruct (draw_detection _ _) as [img|]; cbn [mbind option_bind]; [|done].
    apply Hbody. by exists img.
  - apply Hbody, only_image_changed_refl.
Qed.

Lemma detection_loop_keeps_candidates tf hdr ds : forall st,
  flow_keeps_candidates st (detection_loop mc tf st hdr ds).
Proof.
  induction ds as [|d ds IH]; intros st; cbn [detection_loop].
  - apply only_image_changed_refl.
  - pose proof (detection_step_keeps_candidates tf st hdr d) as Hstep.
    destruct (detection_step mc tf st hdr d) as [st1 ev1|o]; [|exact Hstep].
    cbn in Hstep. specialize (IH st1).
    destruct (detection_loop mc tf st1 hdr ds) as [st2 ev2|[st2 ev2|w st2 ev2|]];
      cbn in *; try done; by eapply only_image_changed_trans.
Qed.

(** As the guard of line 128 is written, no defined run of the detection
    handler creates or updates a candidate: it returns at the guard when a
    depth image is present, and reads outside the empty image otherwise. *)
Lemma detectionCallback_keeps_candidates tf st msg :
  match detectionCallback mc tf st msg with
  | Returned st' _ => only_image_changed st st'
  | Escaped _ _ _ => False
  | Undefined => True
  end.
Proof.
  unfold detectionCallback.
  destruct (mat_empty (pixels (rgb_img_ st))); [apply only_image_changed_refl|].
  pose proof (detection_loop_keeps_candidates tf (det_header msg) (detections msg) st) as Hl.
  destruct (detection_loop _ _ _ _ _) as [st' ev|o]; [|by destruct o].
  by destruct (show_detection_ st').
Qed.

(** Nor do the detection, image and calibration handlers assign
    [best_candidate_]: it keeps the value the constructor leaves it with. *)
Lemma detectionCallback_best_candidate tf st msg :
  match detectionCallback mc tf st msg with
  | Returned st' _ => best_candidate_ st' = best_candidate_ st
  | _ => True
  end.
Proof.
  pose proof (detectionCallback_keeps_candidates tf st msg) as Hk.
  destruct (detectionCallback mc tf st msg); try done.
  by destruct Hk as [img ->].
Qed.

Lemma image_handlers_best_candidate st rgb depth info :
  best_candidate_ (rgbImageCallback st rgb) = best_candidate_ st
  /\ best_candidate_ (depthImageCallback st depth) = best_candidate_ st
  /\ best_candidate_ (cameraInfoCallback st info) = best_candidate_ st.
Proof.
  unfold rgbImageCallback, depthImageCallback, cameraInfoCallback.
  by destruct (haveCalibration_ st).
Qed.

(** ** Transform failures in the detection handler (C2) *)

(** The lookup of line 138 is guarded: its failure is logged and the
    handler returns with the state unchanged. *)
Lemma detection_process_tf_failure tf st hdr detection hypothesis pt what :
  extractEstimatedPoint st (depth_img_ st) detection = Some pt ->
  tf "earth" (frame_id hdr) = TfException what ->
  detection_process mc tf st hdr detection hypothesis
    = Exit (Returned st [Log INFO "Detection %s" [ArgStr (det_id detection)];
                         Log WARN "TF exception: %s" [ArgStr what]]).
Proof.
  intros Hpt Htf. unfold detection_process. by rewrite Hpt, Htf.
Qed.

End DetectionProperties.

Section PointCloudTransforms.
Context {F : Type} `{Arith F} `{Geometry F}.
Implicit Types (st : State F) (tf : TfBuffer F) (msg : PointCloud2 F).

(** The lookups of lines 258 and 260 are guarded: a failure of either is
    logged once and the handler returns with the state unchanged. *)
Lemma pointCloudCallback_guarded_lookups tf st msg :
  current_phase_ st = ONLY_DEPTH_DETECTION ->
  (forall what, tf "earth" (frame_id (cloud_header msg)) = TfException what ->
     exists ev, pointCloudCallback tf st msg = Returned st ev)
  /\ (forall earthTf what,
        tf "earth" (frame_id (cloud_header msg)) = TfOk earthTf ->
        tf (base_frame_ st) (frame_id (cloud_header msg)) = TfException what ->
        exists ev, pointCloudCallback tf st msg = Returned st ev).
Proof.
  intros Hph. split.
  - intros what He. unfold pointCloudCallback.
    rewrite (pointCloudCallback_only_depth tf st msg Hph), He. eauto.
  - intros earthTf what He Hb. unfold pointCloudCallback.
    rewrite (pointCloudCallback_only_depth tf st msg Hph), He, Hb. eauto.
Qed.

(** The lookup of line 304 is not: when it fails after a successful
    refinement, the exception leaves the handler, the best candidate
    already moved. *)
Lemma pointCloudCallback_unguarded_lookup tf st msg earthTf base_frame_Tf b c what :
  current_phase_ st = ONLY_DEPTH_DETECTION ->
  tf "earth" (frame_id (cloud_header msg)) = TfOk earthTf ->
  tf (base_frame_ st) (frame_id (cloud_header msg)) = TfOk base_frame_Tf ->
  best_candidate_ st = Some b ->
  deref st b = Some c ->
  (20 <= length (survivors earthTf c (cloud_points msg)))%nat ->
  tf "earth" (base_frame_ st) = TfException what ->
  exists st', pointCloudCallback tf st msg = Escaped what st' [].
Proof.
  intros Hph He Hb Hbest Hc Hlen Hfail.
  set (cloud := map PointXYZ (survivors earthTf c (cloud_points msg))).
  destruct (updateCandidateFromPointCloud_defined st b c cloud Hc)
    as (p & _ & Hupd).
  { intros Hnil. apply (f_equal length) in Hnil.
    unfold cloud in Hnil. rewrite length_map in Hnil. cbn in Hnil. lia. }
  unfold pointCloudCallback.
  rewrite (pointCloudCallback_only_depth tf st msg Hph), He, Hb, Hbest.
  cbn [mbind option_bind]. rewrite Hc, filter_cloud_survivors. fold cloud.
  assert ((length cloud <? 20)%nat = false) as ->.
  { apply Nat.ltb_ge. unfold cloud. by rewrite length_map. }
  rewrite Hupd. cbn [base_frame_ set_candidates set_n_images].
  rewrite Hfail. eauto.
Qed.
End PointCloudTransforms.

(* ================================================================== *)
(** ** Order facts of the IEEE instance *)
(* ================================================================== *)

Section IEEEOrder.

Lemma cmp_finite_lt e1 m1 e2 m2 :
  cmp_finite e1 m1 e2 m2 = Lt <-> e1 < e2 \/ (e1 = e2 /\ (m1 < m2)%positive).
Proof.
  unfold cmp_finite. fold (Pos.compare m1 m2).
  destruct (Z.compare_spec e1 e2); destruct (Pos.compare_spec m1 m2);
    split; intros; try done; try lia.
Qed.

Lemma cmp_finite_gt e1 m1 e2 m2 :
  cmp_finite e1 m1 e2 m2 = Gt <-> e2 < e1 \/ (e1 = e2 /\ (m2 < m1)%positive).
Proof.
  unfold cmp_finite. fold (Pos.compare m1 m2).
  destruct (Z.compare_spec e1 e2); destruct (Pos.compare_spec m1 m2);
    split; intros; try done; try lia.
Qed.

Lemma SFcompare_finite s1 m1 e1 s2 m2 e2 :
  SFcompare (S754_finite s1 m1 e1) (S754_finite s2 m2 e2)
  = Some match s1, s2 with
         | true, false => Lt
         | false, true => Gt
         | false, false => cmp_finite e1 m1 e2 m2
         | true, true => CompOpp (cmp_finite e1 m1 e2 m2)
         end.
Proof.
  unfold cmp_finite. cbn [SFcompare].
  destruct s1, s2; try reflexivity; by destruct (e1 ?= e2).
Qed.

Lemma CompOpp_lt c : CompOpp c = Lt <-> c = Gt.
Proof. by destruct c. Qed.

Lemma SFltb_irrefl x : SFltb x x = false.
Proof.
  unfold SFltb. destruct x as [s|s| |s m e]; try done; try by destruct s.
  rewrite SFcompare_finite.
  assert (cmp_finite e m e m = Eq) as Hc.
  { unfold cmp_finite. by rewrite Z.compare_refl, Pos.compare_cont_refl. }
  destruct s; by rewrite Hc.
Qed.

Lemma SFltb_trans x y z :
  SFltb x y = true -> SFltb y z = true -> SFltb x z = true.
Proof.
  unfold SFltb.
  destruct x as [sx|sx| |sx mx ex], y as [sy|sy| |sy my ey], z as [sz|sz| |sz mz ez];
    rewrite ?SFcompare_finite;
    try (cbn; done);
    try (destruct sx; cbn; done);
    try (destruct sy; cbn; done);
    try (destruct sz; cbn; done);
    try (destruct sx, sy; cbn; done);
    try (destruct sy, sz; cbn; done);
    try (destruct sx, sz; cbn; done);
    try (destruct sx, sy, sz; cbn; done).
  destruct sx, sy, sz; try done.
  - intros Hxy Hyz.
    destruct (CompOpp (cmp_finite ex mx ey my)) eqn:H1; try done.
    destruct (CompOpp (cmp_finite ey my ez mz)) eqn:H2; try done.
    apply CompOpp_lt, cmp_finite_gt in H1. apply CompOpp_lt, cmp_finite_gt in H2.
    assert (CompOpp (cmp_finite ex mx ez mz) = Lt) as ->; [|done].
    apply CompOpp_lt, cmp_finite_gt. lia.
  - intros Hxy Hyz.
    destruct (cmp_finite ex mx ey my) eqn:H1; try done.
    destruct (cmp_finite ey my ez mz) eqn:H2; try done.
    apply cmp_finite_lt in H1. apply cmp_finite_lt in H2.
    assert (cmp_finite ex mx ez mz = Lt) as ->; [|done].
    apply cmp_finite_lt. lia.
Qed.

#[global] Instance ieee_order : @ArithOrder IEEE.double IEEE.ieee_arith.
Proof.
  split.
  - exact SFltb_irrefl.
  - exact SFltb_trans.
Qed.

End IEEEOrder.


(* ================================================================== *)
(** ** The properties on the concrete scenarios *)
(* ================================================================== *)

Section ScenarioFacts.
Import IEEE Tf2 Scenario.

(** C1 (failing input). With a colour image, a depth image and the
    calibration all present, a detection of the target class makes the
    handler warn "No camera calibration available" and return the state it
    was given: nothing is projected or matched.  With the depth image
    missing instead, the handler goes on to read the empty image. *)
Theorem detection_guard_rejects_available_data :
  let st := node VISUAL_DETECTION_WITH_DEPTH (depth_const (of_int 2)) in
  mat_empty (pixels (rgb_img_ st)) = false
  /\ mat_empty (depth_img_ st) = false
  /\ haveCalibration_ st = true
  /\ detectionCallback match_candidate tf_identity st person_msg
     = Returned st [Log WARN "No camera calibration available" []]
  /\ detectionCallback match_candidate tf_identity
       (node VISUAL_DETECTION_WITH_DEPTH []) person_msg
     = Undefined.
Proof. vm_compute. done. Qed.

(** C2 (failing input). In phase [ONLY_DEPTH_DETECTION], with the two
    guarded lookups resolved and 20 surviving points, a failure of the
    lookup of line 304 leaves the handler as an exception, after the best
    candidate has been moved. *)
Theorem unguarded_lookup_escapes :
  let st := tracking ONLY_DEPTH_DETECTION (Some 0%nat) in
  match pointCloudCallback tf_no_base st (lidar_cloud (column 20)) with
  | Escaped what st' ev =>
      what = "base_link: frame does not exist"
      /\ ev = []
      /\ getEigen <$> deref st' 0%nat
         = Some (vec (of_int 0) (of_int 0) (to_float (fdiv (of_int 19) (of_int 100))))
      /\ getEigen <$> deref st 0%nat = Some zero3
  | _ => False
  end.
Proof. vm_compute. done. Qed.

(** A candidate whose position is NaN: the distance to it is NaN, the test
    [norm > 0.5] of line 287 is false, and a point 100 units from the
    origin passes the filter. *)
Lemma in_sphere_nan_candidate :
  let c := mkCandidate 1 fhalf "person" (earth_point (vec S754_nan S754_nan S754_nan)) in
  in_sphere c (vec (of_int 100) (of_int 0) (of_int 0)) = true.
Proof. vm_compute. reflexivity. Qed.



(** Both branches with the matcher of the specification: an observation 0.3
    units from the stored candidate of the same class updates it, the mean of
    0.5 and 1.0 becoming its confidence; on an empty store the observation
    becomes candidate 1. *)
Lemma match_updates_or_creates_witness :
  (match_candidate [candidate1] [0%nat] "person" near_point (of_int 1) = Some 0%nat
   /\ exists st' ev,
        detection_match_or_create match_candidate
          (tracking VISUAL_DETECTION_WITH_DEPTH None)
          (person_at 320 240 (of_int 1)) person_hypothesis near_point = Next st' ev
        /\ deref st' 0%nat
           = Some (mkCandidate 1 (fdiv (fadd fhalf (of_int 1)) (of_int 2))
                     "person" near_point)
        /\ candidates_ st' = [0%nat])
  /\ (match_candidate [] [] "person" near_point (of_int 1) = None
      /\ exists st' ev,
           detection_match_or_create match_candidate
             (node VISUAL_DETECTION_WITH_DEPTH [])
             (person_at 320 240 (of_int 1)) person_hypothesis near_point = Next st' ev
           /\ candidates_ st' = [0%nat]
           /\ deref st' 0%nat
              = Some (mkCandidate 1 (of_int 1) "person" near_point)).
Proof.
  split.
  - split; [vm_compute; reflexivity|].
    destruct (match_updates_or_creates match_candidate
                (tracking VISUAL_DETECTION_WITH_DEPTH None)
                (person_at 320 240 (of_int 1)) person_hypothesis near_point)
      as [Hupd _].
    destruct (Hupd 0%nat candidate1) as (st' & ev & Heq & Hd & _ & Hcs & _);
      [vm_compute; reflexivity|reflexivity|].
    exists st', ev. split; [exact Heq|]. split; [exact Hd|exact Hcs].
  - split; [reflexivity|].
    destruct (match_updates_or_creates match_candidate
                (node VISUAL_DETECTION_WITH_DEPTH [])
                (person_at 320 240 (of_int 1)) person_hypothesis near_point)
      as [_ Hnew].
    destruct Hnew as (st' & ev & Heq & Hcs & _ & Hd & _); [reflexivity|].
    exists st', ev. split; [exact Heq|]. split; [exact Hcs|exact Hd].
Defined.

(** In phase [TOO_NEAR_TO_DETECT] clouds that would refine the candidate, or
    make the unguarded lookup fail, change nothing. *)
Lemma pointcloud_gated_by_phase_witness :
  let st := tracking TOO_NEAR_TO_DETECT (Some 0%nat) in
  current_phase_ st <> ONLY_DEPTH_DETECTION
  /\ pointCloudCallback tf_identity st mixed_cloud = Returned st []
  /\ run_clouds st [(tf_identity, mixed_cloud); (tf_no_base, lidar_cloud (column 20))]
     = Returned st [].
Proof.
  assert (current_phase_ (tracking TOO_NEAR_TO_DETECT (Some 0%nat))
          <> ONLY_DEPTH_DETECTION) as Hph by discriminate.
  split; [exact Hph|].
  destruct (pointcloud_gated_by_phase (tracking TOO_NEAR_TO_DETECT (Some 0%nat)) Hph)
    as [Hone Hall].
  split; [apply Hone|apply Hall].
Defined.

(** 19 points within the radius of the candidate. *)
Lemma few_survivors_no_update_witness :
  let st := tracking ONLY_DEPTH_DETECTION (Some 0%nat) in
  length (survivors identity candidate1 (column 19)) = 19%nat
  /\ pointCloudCallback tf_identity st (lidar_cloud (column 19)) = Returned st [].
Proof.
  split; [vm_compute; reflexivity|].
  apply (few_survivors_no_update tf_identity (tracking ONLY_DEPTH_DETECTION (Some 0%nat))
           (lidar_cloud (column 19)) identity identity
           (map PointXYZ (@survivors double _ geometry identity candidate1 (column 19))));
    [reflexivity|reflexivity|reflexivity|vm_compute; reflexivity|vm_compute; lia].
Defined.



End ScenarioFacts.

(* ================================================================== *)
(** ** Projection and reprojection *)
(* ================================================================== *)

Section ProjectionFacts.
Import IEEE Exact.

(** C8. For a pixel [(u, v)] inside the depth image whose sample [d] is
    neither zero nor infinite, and intrinsics [fx], [fy], [cx], [cy] read
    from [K], the projector returns [x = (u - cx) * d / fx],
    [y = (v - cy) * d / fy], [z = d]: [x] and [y] computed in double
    arithmetic and stored as floats, [z] the float sample itself; the
    distortion coefficients play no part.  With [fx = fy = 500],
    [cx = 320], [cy = 240], pixel [(320, 240)] and depth 2.0 the result is
    [(0, 0, 2.0)]. *)
Theorem get_point_from_depth_pinhole :
  (forall (F : Type) (A : Arith F) (depth_img : Mat F) u v K D D' d cx cy fx fy,
      mat_at depth_img v u = Some d ->
      to_float d = d ->
      feqb d (of_int 0) = false ->
      feqb d infinity = false ->
      mat_at K 0 2 = Some cx ->
      mat_at K 1 2 = Some cy ->
      mat_at K 0 0 = Some fx ->
      mat_at K 1 1 = Some fy ->
      get_point_from_depth depth_img (u, v) K D
        = Some (mkVec3 (to_float (fdiv (fmul (fsub (of_int u) cx) d) fx))
                       (to_float (fdiv (fmul (fsub (of_int v) cy) d) fy))
                       d)
      /\ get_point_from_depth depth_img (u, v) K D'
         = get_point_from_depth depth_img (u, v) K D)
  /\ (forall D : Mat double,
        get_point_from_depth (Scenario.depth_const (of_int 2)) (320, 240) Scenario.K0 D
        = Some (mkVec3 (of_int 0) (of_int 0) (of_int 2))).
Proof.
  split.
  - intros F A depth_img u v K D D' d cx cy fx fy Hd Hfl Hz Hi Hcx Hcy Hfx Hfy.
    split; [by apply get_point_from_depth_formula|reflexivity].
  - intros D. vm_compute. reflexivity.
Qed.

(** Pixel [(321, 241)] at depth 3.0. *)
Lemma get_point_from_depth_pinhole_witness :
  mat_at (Scenario.depth_const (of_int 3)) 241 321 = Some (of_int 3 : double)
  /\ feqb (of_int 3 : double) (of_int 0) = false
  /\ feqb (of_int 3 : double) infinity = false
  /\ get_point_from_depth (Scenario.depth_const (of_int 3)) (321, 241) Scenario.K0 []
     = Some (mkVec3 (to_float (fdiv (fmul (fsub (of_int 321) (of_int 320)) (of_int 3))
                                    (of_int 500)))
                    (to_float (fdiv (fmul (fsub (of_int 241) (of_int 240)) (of_int 3))
                                    (of_int 500)))
                    (of_int 3 : double)).
Proof.
  repeat (split; [vm_compute; reflexivity|]).
  apply (proj1 get_point_from_depth_pinhole double ieee_arith
           (Scenario.depth_const (of_int 3)) 321 241 Scenario.K0 [] []
           (of_int 3) (of_int 320) (of_int 240) (of_int 500) (of_int 500));
    vm_compute; reflexivity.
Defined.


Lemma xeqb_Fin_false (a b : Qc) : a <> b -> xeqb (Fin a) (Fin b) = false.
Proof.
  intros Hne. unfold xeqb, xcompare.
  destruct (Qccompare a b) eqn:Hc; try reflexivity.
  by apply Qceq_alt in Hc.
Qed.

Lemma xdiv_Fin (a b : Qc) : b <> 0%Qc -> xdiv (Fin a) (Fin b) = Fin (a / b)%Qc.
Proof. intros Hb. unfold xdiv. by destruct (Qc_eq_dec b 0%Qc). Qed.



End ProjectionFacts.

(* ================================================================== *)
(** ** Calibration *)
(* ================================================================== *)

Section CalibrationProperties.
Context {F : Type} `{Arith F} `{Geometry F}.
Implicit Types (st : State F) (info : CameraInfo F).

Lemma cameraInfoCallback_calibrated st info :
  haveCalibration_ st = true -> cameraInfoCallback st info = st.
Proof. unfold cameraInfoCallback. by intros ->. Qed.

Lemma cameraInfoCallback_sets st info :
  haveCalibration_ (cameraInfoCallback st info) = true.
Proof. unfold cameraInfoCallback. by destruct (haveCalibration_ st) eqn:Hc. Qed.

Lemma calibrated_ignores st infos :
  haveCalibration_ st = true -> foldl cameraInfoCallback st infos = st.
Proof.
  intros Hc. induction infos as [|info infos IH]; [reflexivity|].
  cbn [foldl]. by rewrite cameraInfoCallback_calibrated.
Qed.

(** X1. The calibration is taken from the first message only: after any
    [cameraInfoCallback] the node is calibrated, a calibrated node ignores
    every further message, and so a sequence of calibration messages leaves
    the node where the first one put it. *)
Theorem calibration_is_set_once st info infos :
  haveCalibration_ (cameraInfoCallback st info) = true
  /\ foldl cameraInfoCallback st (info :: infos) = cameraInfoCallback st info
  /\ (haveCalibration_ st = true -> foldl cameraInfoCallback st (info :: infos) = st).
Proof.
  split; [apply cameraInfoCallback_sets|]. split.
  - cbn [foldl]. apply calibrated_ignores, cameraInfoCallback_sets.
  - intros Hc. by apply calibrated_ignores.
Qed.

Lemma nine_entries {A} (l : list A) :
  length l = 9%nat ->
  exists k0 k1 k2 k3 k4 k5 k6 k7 k8, l = [k0; k1; k2; k3; k4; k5; k6; k7; k8].
Proof.
  intros Hlen.
  destruct l as [|k0 l]; [done|]. destruct l as [|k1 l]; [done|].
  destruct l as [|k2 l]; [done|]. destruct l as [|k3 l]; [done|].
  destruct l as [|k4 l]; [done|]. destruct l as [|k5 l]; [done|].
  destruct l as [|k6 l]; [done|]. destruct l as [|k7 l]; [done|].
  destruct l as [|k8 l]; [done|]. destruct l as [|k9 l]; [|done].
  by exists k0, k1, k2, k3, k4, k5, k6, k7, k8.
Qed.

(** The entries of [K_] after the first calibration message. *)
Lemma calibration_K_at st info (i j : Z) :
  haveCalibration_ st = false ->
  length (info_k info) = 9%nat ->
  mat_at (K_ (cameraInfoCallback st info)) i j
  = if (0 <=? i) && (i <? 3) && (0 <=? j) && (j <? 3)
    then info_k info !! Z.to_nat (3 * i + j)
    else None.
Proof.
  intros Hc Hlen. unfold cameraInfoCallback. rewrite Hc. cbn [negb K_ set_calibration].
  destruct (nine_entries _ Hlen) as (k0 & k1 & k2 & k3 & k4 & k5 & k6 & k7 & k8 & Hk).
  rewrite Hk.
  cbn [take drop]. unfold mat_at, Mat.
  destruct (decide (0 <= i < 3 /\ 0 <= j < 3)) as [[Hi Hj]|Hout].
  - assert ((0 <=? i) && (i <? 3) && (0 <=? j) && (j <? 3) = true) as -> by lia.
    assert ((i <? 0) || (j <? 0) = false) as -> by lia.
    assert (i = 0 \/ i = 1 \/ i = 2) as [-> | [-> | ->]] by lia;
      assert (j = 0 \/ j = 1 \/ j = 2) as [-> | [-> | ->]] by lia; reflexivity.
  - assert ((0 <=? i) && (i <? 3) && (0 <=? j) && (j <? 3) = false) as -> by lia.
    destruct ((i <? 0) || (j <? 0)) eqn:Hneg; [reflexivity|].
    destruct (decide (i < 3)) as [Hi|Hi].
    + assert (i = 0 \/ i = 1 \/ i = 2) as [-> | [-> | ->]] by lia;
        cbn [Z.to_nat Pos.to_nat Pos.iter_op Init.Nat.add lookup list_lookup
             mbind option_bind];
        apply lookup_ge_None; cbn [length]; lia.
    + assert ([[k0; k1; k2]; [k3; k4; k5]; [k6; k7; k8]] !! Z.to_nat i = None) as ->
        by (apply lookup_ge_None; cbn [length]; lia).
      reflexivity.
Qed.

(** X2. On a node not yet calibrated, a calibration message with the nine
    entries [k] makes [K_] the 3 x 3 matrix with [K_(i, j) = k[3 i + j]];
    every read outside it is out of range; the image size is the one of the
    message (sizes that fit an [int]); and the projector then works with [fx = k[0]], [cx = k[2]],
    [fy = k[4]], [cy = k[5]]. *)
Theorem calibration_feeds_projector st info :
  haveCalibration_ st = false ->
  length (info_k info) = 9%nat ->
  (forall i j : Z,
      mat_at (K_ (cameraInfoCallback st info)) i j
      = if (0 <=? i) && (i <? 3) && (0 <=? j) && (j <? 3)
        then info_k info !! Z.to_nat (3 * i + j)
        else None)
  /\ (0 <= info_width info < 2 ^ 31 -> 0 <= info_height info < 2 ^ 31 ->
      imgSize_ (cameraInfoCallback st info) = (info_width info, info_height info))
  /\ (forall (depth_img : Mat F) u v D d fx cx fy cy,
        info_k info !! 0%nat = Some fx ->
        info_k info !! 2%nat = Some cx ->
        info_k info !! 4%nat = Some fy ->
        info_k info !! 5%nat = Some cy ->
        mat_at depth_img v u = Some d ->
        to_float d = d ->
        feqb d (of_int 0) = false ->
        feqb d infinity = false ->
        get_point_from_depth depth_img (u, v) (K_ (cameraInfoCallback st info)) D
        = Some (mkVec3 (to_float (fdiv (fmul (fsub (of_int u) cx) d) fx))
                       (to_float (fdiv (fmul (fsub (of_int v) cy) d) fy))
                       d)).
Proof.
  intros Hc Hlen. split; [|split].
  - intros i j. by apply calibration_K_at.
  - intros _ _. unfold cameraInfoCallback. by rewrite Hc.
  - intros depth_img u v D d fx cx fy cy Hfx Hcx Hfy Hcy Hd Hfl Hz Hi.
    apply get_point_from_depth_formula; try done.
    + by rewrite calibration_K_at.
    + by rewrite calibration_K_at.
    + by rewrite calibration_K_at.
    + by rewrite calibration_K_at.
Qed.

End CalibrationProperties.

(* ================================================================== *)
(** ** Bounds of the image reads *)
(* ================================================================== *)

Section BoundsProperties.
Context {F : Type} `{Arith F} `{Geometry F}.
Implicit Types (st : State F).

(** A read is in range exactly when the row and the column exist. *)
Lemma mat_at_is_Some {A} (m : Mat A) (c : nat) (r j : Z) :
  rectangular m c ->
  is_Some (mat_at m r j) <-> 0 <= r < mat_rows m /\ 0 <= j < Z.of_nat c.
Proof.
  intros Hrect. unfold mat_at, mat_rows.
  destruct ((r <? 0) || (j <? 0)) eqn:Hneg.
  - split; [by intros [? ?]|]. intros [Hr Hj]. lia.
  - assert (0 <= r /\ 0 <= j) as [Hr Hj] by lia.
    destruct (m !! Z.to_nat r) as [row|] eqn:Hrow; cbn [mbind option_bind].
    + assert (length row = c) as Hlen.
      { unfold rectangular in Hrect. rewrite Forall_forall in Hrect.
        apply Hrect. by eapply list_elem_of_lookup_2. }
      apply lookup_lt_Some in Hrow.
      rewrite lookup_lt_is_Some, Hlen. lia.
    + apply lookup_ge_None in Hrow. split; [by intros [? ?]|]. lia.
Qed.

(** X3. Bounds of the projection of a detection.  With a depth image of
    [c] columns and the 3 x 3 calibration matrix in place,
    [extractEstimatedPoint] is defined exactly when both coordinates of the
    centre convert to [int] and the resulting pixel lies inside the image;
    everywhere else the source reads outside the image or converts out of
    range.  The point it returns carries the default header. *)
Theorem extractEstimatedPoint_in_bounds st (depth_img : Mat F) (c : nat) detection :
  rectangular depth_img c ->
  rectangular (K_ st) 3 ->
  length (K_ st) = 3%nat ->
  (is_Some (extractEstimatedPoint st depth_img detection)
   <-> exists u v,
         cv_Point (center_x detection) (center_y detection) = Some (u, v)
         /\ 0 <= u < Z.of_nat c
         /\ 0 <= v < mat_rows depth_img)
  /\ (forall pt, extractEstimatedPoint st depth_img detection = Some pt ->
                 header pt = mkHeader "" 0).
Proof.
  intros Hrect HK HK3.
  assert (forall i j, 0 <= i < 3 -> 0 <= j < 3 -> is_Some (mat_at (K_ st) i j)) as Hread.
  { intros i j Hi Hj. apply (mat_at_is_Some _ 3 _ _ HK). unfold mat_rows. lia. }
  split.
  - unfold extractEstimatedPoint.
    destruct (cv_Point _ _) as [[u v]|]; cbn [mbind option_bind].
    + unfold get_point_from_depth. cbn [fst snd].
      pose proof (mat_at_is_Some depth_img c v u Hrect) as Hb.
      destruct (mat_at depth_img v u) as [d|]; cbn [mbind option_bind].
      * assert (0 <= v < mat_rows depth_img /\ 0 <= u < Z.of_nat c) as [Hv Hu]
          by (apply Hb; eauto).
        split; [intros _; by exists u, v|]. intros _.
        destruct (_ || _); [eauto|].
        destruct (Hread 0 2) as [? ->]; [lia..|].
        destruct (Hread 1 2) as [? ->]; [lia..|].
        destruct (Hread 0 0) as [? ->]; [lia..|].
        destruct (Hread 1 1) as [? ->]; [lia..|].
        cbn [mbind option_bind]. eauto.
      * split; [by intros [? ?]|].
        intros (u' & v' & Heq & Hu & Hv). injection Heq as <- <-.
        assert (is_Some (@None F)) as [? ?] by (apply Hb; lia). done.
    + split; [by intros [? ?]|]. by intros (? & ? & ? & _).
  - intros pt. unfold extractEstimatedPoint. intros Hpt.
    destruct (cv_Point _ _); cbn [mbind option_bind] in Hpt; [|done].
    destruct (get_point_from_depth _ _ _ _); cbn [mbind option_bind] in Hpt; [|done].
    by injection Hpt as <-.
Qed.

End BoundsProperties.

(* ================================================================== *)
(** ** More on the refiner and the point-cloud handler *)
(* ================================================================== *)

Section RefinerProperties.
Context {F : Type} `{Arith F} `{Geometry F}.
Implicit Types (st : State F) (tf : TfBuffer F) (msg : PointCloud2 F).

Lemma run_clouds_other_phase st msgs :
  current_phase_ st <> ONLY_DEPTH_DETECTION -> run_clouds st msgs = Returned st [].
Proof.
  intros Hph. induction msgs as [|[tf msg] rest IH]; [reflexivity|].
  cbn [run_clouds]. rewrite pointCloudCallback_other_phase by done.
  by rewrite IH.
Qed.



(** X6. A failure of either guarded lookup (lines 258 and 260) ends the
    handler with the state it was given and exactly one log-once error
    naming ["earth"], the frame of the cloud and the text of the exception;
    the points of the cloud play no part. *)
Theorem guarded_lookup_failure_drops_cloud tf st msg what :
  current_phase_ st = ONLY_DEPTH_DETECTION ->
  tf "earth" (frame_id (cloud_header msg)) = TfException what
  \/ (exists earthTf, tf "earth" (frame_id (cloud_header msg)) = TfOk earthTf)
     /\ tf (base_frame_ st) (frame_id (cloud_header msg)) = TfException what ->
  forall pts,
    pointCloudCallback tf st (mkCloud (cloud_header msg) pts)
    = Returned st [LogOnce ERROR "Could not transform %s to %s: %s"
                     [ArgStr "earth"; ArgStr (frame_id (cloud_header msg)); ArgStr what]].
Proof.
  intros Hph Hfail pts. unfold pointCloudCallback.
  rewrite (pointCloudCallback_only_depth tf st msg Hph). cbn [cloud_header].
  destruct Hfail as [He|[[earthTf He] Hb]].
  - by rewrite He.
  - by rewrite He, Hb.
Qed.

(** X7. The transform from the frame of the cloud to [base_frame_] is looked
    up but never applied: two transform buffers that answer alike for
    target ["earth"], and that both resolve (or fail alike) from the cloud's
    frame to [base_frame_], give the same outcome, whatever the two
    transforms to [base_frame_] are. *)
Theorem body_transform_is_not_used tf tf' st msg :
  (forall source, tf "earth" source = tf' "earth" source) ->
  match tf (base_frame_ st) (frame_id (cloud_header msg)),
        tf' (base_frame_ st) (frame_id (cloud_header msg)) with
  | TfOk _, TfOk _ => True
  | TfException what, TfException what' => what = what'
  | _, _ => False
  end ->
  pointCloudCallback tf st msg = pointCloudCallback tf' st msg.
Proof.
  intros Hearth Hbase. unfold pointCloudCallback.
  destruct (_ || _); [reflexivity|].
  rewrite !Hearth.
  destruct (tf' "earth" (frame_id (cloud_header msg))) as [earthTf|what]; [|reflexivity].
  destruct (tf (base_frame_ st) _) as [t|w], (tf' (base_frame_ st) _) as [t'|w'];
    try done; [|by subst].
  destruct (filter_cloud _ _ _); [|reflexivity].
  destruct (_ <? _)%nat; [reflexivity|].
  destruct (best_candidate_ st); [|reflexivity].
  destruct (updateCandidateFromPointCloud _ _ _); [|reflexivity].
  by rewrite Hearth.
Qed.

End RefinerProperties.

(* ================================================================== *)
(** ** Detections of other classes, and detections without hypothesis *)
(* ================================================================== *)

Section DetectionLoopProperties.
Context {F : Type} `{Arith F} `{Geometry F}.
Variable mc : list (Candidate F) -> list nat -> string -> PointStamped F -> F -> option nat.
Implicit Types (st : State F) (tf : TfBuffer F) (detection : Detection2D F).

Lemma detection_step_other_class tf st hdr detection :
  show_detection_ st = false ->
  other_class (target_detection_ st) detection ->
  detection_step mc tf st hdr detection = Next st [].
Proof.
  intros Hshow (r & Hr & Hne). unfold detection_step. rewrite Hshow, Hr.
  apply String.eqb_neq in Hne. by rewrite Hne.
Qed.

Lemma detection_loop_other_class tf st hdr ds :
  show_detection_ st = false ->
  Forall (other_class (target_detection_ st)) ds ->
  detection_loop mc tf st hdr ds = Next st [].
Proof.
  intros Hshow Hall. induction Hall as [|d ds Hd Hds IH]; [reflexivity|].
  cbn [detection_loop]. rewrite detection_step_other_class by done. by rewrite IH.
Qed.

(** X8. Detections of other classes are skipped.  With a colour image
    present and [show_detection_] off, a message whose detections all have
    a first hypothesis of a class other than the target leaves the state as
    it is and logs nothing; the empty message is the special case. *)
Theorem other_classes_are_skipped tf st msg :
  mat_empty (pixels (rgb_img_ st)) = false ->
  show_detection_ st = false ->
  Forall (other_class (target_detection_ st)) (detections msg) ->
  detectionCallback mc tf st msg = Returned st [].
Proof.
  intros Hrgb Hshow Hall. unfold detectionCallback.
  rewrite Hrgb, detection_loop_other_class by done. by rewrite Hshow.
Qed.

(** X9. [results[0]] is read unguarded.  With a colour image present and
    [show_detection_] off, a detection without any hypothesis, reached
    after detections of other classes, makes the handler read the first
    element of an empty vector, whatever follows it in the message. *)
Theorem detection_without_hypothesis tf st hdr ds1 detection ds2 :
  mat_empty (pixels (rgb_img_ st)) = false ->
  show_detection_ st = false ->
  Forall (other_class (target_detection_ st)) ds1 ->
  results detection = [] ->
  detectionCallback mc tf st (mkDetections hdr (ds1 ++ detection :: ds2)) = Undefined.
Proof.
  intros Hrgb Hshow Hall Hnone. unfold detectionCallback.
  rewrite Hrgb. cbn [det_header detections].
  assert (detection_loop mc tf st hdr (ds1 ++ detection :: ds2) = Exit Undefined) as ->;
    [|reflexivity].
  induction Hall as [|d ds Hd Hds IH]; cbn [app detection_loop].
  - unfold detection_step. by rewrite Hshow, Hnone.
  - rewrite detection_step_other_class by done. by rewrite IH.
Qed.

Lemma set_rgb_img_twice st (img1 img2 : Image) :
  set_rgb_img img2 (set_rgb_img img1 st) = set_rgb_img img2 st.
Proof. reflexivity. Qed.

Lemma detection_loop_overlay tf hdr entries : forall st,
  show_detection_ st = true ->
  Forall (fun e => detection_box (fst e) = Some (snd e)
                   /\ other_class (target_detection_ st) (fst e)) entries ->
  detection_loop mc tf st hdr (map fst entries)
  = Next (set_rgb_img (mkImage (pixels (rgb_img_ st))
                               (drawn (rgb_img_ st) ++ concat (map overlay entries))) st)
         [].
Proof.
  induction entries as [|[d [p1 p2]] entries IH]; intros st Hshow Hall.
  - cbn [map concat detection_loop]. rewrite app_nil_r. by destruct st as [? ? ? ? ? ? ? []].
  - apply Forall_cons in Hall as [[Hbox (r & Hr & Hne)] Hall]. cbn [fst snd] in *.
    cbn [map detection_loop]. unfold detection_step at 1. rewrite Hshow.
    unfold draw_detection. unfold detection_box in Hbox.
    destruct (cv_Point (fsub _ _) _) as [q1|]; cbn [mbind option_bind] in *; [|done].
    destruct (cv_Point (fadd _ _) _) as [q2|]; cbn [mbind option_bind] in *; [|done].
    injection Hbox as -> ->.
    cbn [results target_detection_ set_rgb_img fst snd]. rewrite Hr.
    apply String.eqb_neq in Hne as Hne'. rewrite Hne'. cbn [negb].
    rewrite IH; [|done|].
    + cbn [rgb_img_ set_rgb_img pixels drawn concat overlay fst snd app].
      rewrite <- app_assoc. reflexivity.
    + eapply Forall_impl; [exact Hall|]. intros e [Hb Ho]. by split.
Qed.

(** X10. With [show_detection_] on, every detection is outlined and
    labelled with its id before its class is looked at.  For a message
    whose detections are all of other classes, with boxes whose corners
    convert to [int], the handler appends to the colour image one rectangle
    and one label per detection, in the order of the message, shows the
    image once in the window ["RGB Image"], and changes nothing else. *)
Theorem every_detection_is_drawn tf st hdr entries :
  mat_empty (pixels (rgb_img_ st)) = false ->
  show_detection_ st = true ->
  Forall (fun e => detection_box (fst e) = Some (snd e)
                   /\ other_class (target_detection_ st) (fst e)) entries ->
  let img := mkImage (pixels (rgb_img_ st))
                     (drawn (rgb_img_ st) ++ concat (map overlay entries)) in
  detectionCallback mc tf st (mkDetections hdr (map fst entries))
  = Returned (set_rgb_img img st) [ShowImage "RGB Image" img].
Proof.
  intros Hrgb Hshow Hall img. unfold detectionCallback.
  rewrite Hrgb. cbn [det_header detections].
  rewrite detection_loop_overlay by done.
  cbn [show_detection_ set_rgb_img]. by rewrite Hshow.
Qed.

End DetectionLoopProperties.

(* ================================================================== *)
(** ** What no handler does *)
(* ================================================================== *)

Section NodeProperties.
Context {F : Type} `{Arith F} `{Geometry F}.
Variable mc : list (Candidate F) -> list nat -> string -> PointStamped F -> F -> option nat.
Implicit Types (st : State F).

Lemma node_step_refl st : node_step st st.
Proof. unfold node_step. repeat split; auto. by intros ->. Qed.

Lemma node_step_trans st1 st2 st3 :
  node_step st1 st2 -> node_step st2 st3 -> node_step st1 st3.
Proof.
  intros (Hp1 & Hb1 & Hs1 & Hc1) (Hp2 & Hb2 & Hs2 & Hc2). unfold node_step.
  split; [|split; [congruence|split; [congruence|]]].
  - destruct Hp1 as [Hp1|[Hp1 Hp1']], Hp2 as [Hp2|[Hp2 Hp2']];
      [left; congruence|right; split; congruence|right; split; congruence|congruence].
  - intros Hc. specialize (Hc1 Hc).
    assert (haveCalibration_ st2 = true) as Hc' by congruence.
    specialize (Hc2 Hc'). congruence.
Qed.

Lemma node_step_set_rgb_img st img : node_step st (set_rgb_img img st).
Proof. unfold node_step. cbn. repeat split; auto. by intros ->. Qed.

Lemma pointCloudCallback_node_step tf st msg :
  match pointCloudCallback tf st msg with
  | Returned st' _ | Escaped _ st' _ => node_step st st'
  | Undefined => True
  end.
Proof.
  unfold pointCloudCallback, updateCandidateFromPointCloud.
  destruct (_ || _) eqn:Hguard; [apply node_step_refl|].
  assert (current_phase_ st = ONLY_DEPTH_DETECTION) as Hph.
  { destruct (current_phase_ st); by cbn in Hguard. }
  repeat (case_match; simplify_option_eq; try done);
    try apply node_step_refl;
    unfold node_step; cbn; repeat split; auto; by intros ->.
Qed.

Lemma handle_node_step st m :
  match handle mc st m with
  | Returned st' _ | Escaped _ st' _ => node_step st st'
  | Undefined => True
  end.
Proof.
  destruct m as [img|img|info|tf msg|tf msg]; cbn [handle].
  - apply node_step_set_rgb_img.
  - unfold node_step. cbn. repeat split; auto. by intros ->.
  - unfold cameraInfoCallback.
    destruct (haveCalibration_ st) eqn:Hc; cbn [negb]; [apply node_step_refl|].
    unfold node_step. cbn. repeat split; auto. by rewrite Hc.
  - pose proof (detectionCallback_keeps_candidates mc tf st msg) as Hk.
    destruct (detectionCallback mc tf st msg); try done.
    destruct Hk as [img ->]. apply node_step_set_rgb_img.
  - apply pointCloudCallback_node_step.
Qed.

Lemma run_node_step ms : forall st,
  match run mc st ms with
  | Returned st' _ | Escaped _ st' _ => node_step st st'
  | Undefined => True
  end.
Proof.
  induction ms as [|m ms IH]; intros st; cbn [run]; [apply node_step_refl|].
  pose proof (handle_node_step st m) as Hm.
  destruct (handle mc st m) as [st1 ev1|w st1 ev1|]; try done.
  specialize (IH st1).
  destruct (run mc st1 ms) as [st2 ev2|w st2 ev2|]; try done;
    by eapply node_step_trans.
Qed.

(** X11. The only phase transition.  Whatever messages the handlers of the
    node receive, in whatever order, as long as the run is defined the
    phase either stays what it was or has gone from [ONLY_DEPTH_DETECTION]
    to [TOO_NEAR_TO_DETECT]; in particular no handler enters
    [ONLY_DEPTH_DETECTION], and a node that is not in it keeps its phase. *)
Theorem phase_moves_only_to_too_near st ms :
  match run mc st ms with
  | Returned st' _ | Escaped _ st' _ =>
      (current_phase_ st' = current_phase_ st
       \/ (current_phase_ st = ONLY_DEPTH_DETECTION
           /\ current_phase_ st' = TOO_NEAR_TO_DETECT))
      /\ (current_phase_ st <> ONLY_DEPTH_DETECTION ->
          current_phase_ st' = current_phase_ st)
  | Undefined => True
  end.
Proof.
  pose proof (run_node_step ms st) as Hrun.
  destruct (run mc st ms) as [st' ev|w st' ev|]; try done;
    destruct Hrun as (Hp & _); (split; [exact Hp|]);
    intros Hne; by destruct Hp as [Hp|[Hp _]].
Qed.

(** X12. No handler assigns the best-candidate pointer, the frame name
    [base_frame_], the flags [show_detection_] and [new_detection_] or the
    target class: after any defined run they are what they were. *)
Theorem settings_are_never_assigned st ms :
  match run mc st ms with
  | Returned st' _ | Escaped _ st' _ =>
      best_candidate_ st' = best_candidate_ st
      /\ base_frame_ st' = base_frame_ st
      /\ show_detection_ st' = show_detection_ st
      /\ new_detection_ st' = new_detection_ st
      /\ target_detection_ st' = target_detection_ st
  | Undefined => True
  end.
Proof.
  pose proof (run_node_step ms st) as Hrun.
  destruct (run mc st ms) as [st' ev|w st' ev|]; try done;
    destruct Hrun as (_ & Hb & Hs & _); injection Hs as ? ? ? ?; by repeat split.
Qed.

(** X13. The camera model is immutable once received: on a calibrated node
    no run of handlers, calibration messages included, changes [K_], [D_],
    the image size or the flag [haveCalibration_]. *)
Theorem calibration_is_frozen st ms :
  haveCalibration_ st = true ->
  match run mc st ms with
  | Returned st' _ | Escaped _ st' _ =>
      K_ st' = K_ st /\ D_ st' = D_ st /\ imgSize_ st' = imgSize_ st
      /\ haveCalibration_ st' = true
  | Undefined => True
  end.
Proof.
  intros Hc. pose proof (run_node_step ms st) as Hrun.
  destruct (run mc st ms) as [st' ev|w st' ev|]; try done;
    destruct Hrun as (_ & _ & _ & Hk); specialize (Hk Hc);
    injection Hk as ? ? ? ?; by repeat split.
Qed.

End NodeProperties.

(* ================================================================== *)
(** ** Windows *)
(* ================================================================== *)

Section WindowProperties.
Implicit Types (w : gmap string bool) (shown : list (string * Image)).

Lemma show_images_cons w title img shown :
  show_images w ((title, img) :: shown)
  = ((show_images (showImage w title img).1 shown).1,
     (showImage w title img).2 ++ (show_images (showImage w title img).1 shown).2).
Proof.
  cbn [show_images]. destruct (showImage w title img) as [w1 c1]. cbn [fst snd].
  by destruct (show_images w1 shown).
Qed.

Lemma eqb_title (t title : string) :
  String.eqb t title = bool_decide (t = title).
Proof.
  destruct (String.eqb_spec t title) as [->|Hne].
  - by rewrite bool_decide_eq_true_2.
  - by rewrite bool_decide_eq_false_2.
Qed.

Lemma shown_in_cons title (t : string) (img : Image) shown :
  shown_in title ((t, img) :: shown)
  = if bool_decide (t = title) then img :: shown_in title shown else shown_in title shown.
Proof.
  unfold shown_in. cbn [omap list_omap fst snd]. rewrite eqb_title. by case_bool_decide.
Qed.

(** X14. A window is created once and keeps its first size.  Over any
    sequence of [showImage] calls, starting from any content of the static
    map: every image is handed to [imshow], in the order of the calls; a
    title already in the map gets no [namedWindow] or [resizeWindow] call;
    a title not yet in it gets exactly one of each if an image is shown
    under it, the size being [cols x rows] of the first such image, however
    large the later ones are; and the title is in the map afterwards. *)
Theorem window_is_created_once w shown title :
  omap shows (show_images w shown).2 = shown
  /\ omap (sizes title) (show_images w shown).2
     = match w !! title, shown_in title shown with
       | None, img :: _ => [(mat_cols (pixels img), mat_rows (pixels img))]
       | _, _ => []
       end
  /\ length (filter (fun c => opens title c = true) (show_images w shown).2)
     = length (omap (sizes title) (show_images w shown).2)
  /\ (show_images w shown).1 !! title
     = match w !! title, shown_in title shown with
       | None, _ :: _ => Some true
       | b, _ => b
       end.
Proof.
  revert w. induction shown as [|[t img] shown IH]; intros w.
  - cbn. by destruct (w !! title).
  - rewrite show_images_cons. cbn [fst snd].
    destruct (IH (showImage w t img).1) as (IH1 & IH2 & IH3 & IH4).
    rewrite !omap_app, filter_app, !length_app, IH1, IH3, IH2, IH4, shown_in_cons.
    unfold showImage.
    destruct (w !! t) as [b|] eqn:Hwt;
      cbn [fst snd omap list_omap shows sizes mbind option_bind];
      rewrite ?eqb_title.
    + rewrite filter_cons, filter_cons, filter_nil. cbn [opens].
      destruct (decide (false = true)) as [|_]; [done|]. cbn [length app Nat.add].
      split; [reflexivity|].
      case_bool_decide as Ht; [subst t; by rewrite Hwt|].
      by destruct (w !! title), (shown_in title shown).
    + rewrite !filter_cons, filter_nil. cbn [opens]. rewrite eqb_title.
      destruct (decide (false = true)) as [|_]; [done|].
      case_bool_decide as Ht.
      * subst t. rewrite Hwt, lookup_insert_eq.
        destruct (decide (true = true)); [|done]. cbn [length app Nat.add].
        by repeat split.
      * rewrite lookup_insert_ne by done.
        destruct (decide (false = true)) as [|_]; [done|]. cbn [length app Nat.add].
        split; [reflexivity|].
        by destruct (w !! title), (shown_in title shown).
Qed.

End WindowProperties.

(* ================================================================== *)
(** ** Construction *)
(* ================================================================== *)

Section ConstructionProperties.

Lemma snoc_not_empty (t : string) (c : Ascii.ascii) : t +:+ String c "" <> "".
Proof. by destruct t. Qed.

Lemma back_cons (a : Ascii.ascii) (s : string) : s <> "" -> back (String a s) = back s.
Proof. by destruct s. Qed.

Lemma pop_back_cons (a : Ascii.ascii) (s : string) :
  s <> "" -> pop_back (String a s) = String a (pop_back s).
Proof. by destruct s. Qed.

Lemma back_snoc (t : string) (c : Ascii.ascii) : back (t +:+ String c "") = Some c.
Proof.
  induction t as [|a t IH]; [reflexivity|].
  change (String a t +:+ String c "") with (String a (t +:+ String c "")).
  rewrite back_cons by apply snoc_not_empty. exact IH.
Qed.

Lemma pop_back_snoc (t : string) (c : Ascii.ascii) : pop_back (t +:+ String c "") = t.
Proof.
  induction t as [|a t IH]; [reflexivity|].
  change (String a t +:+ String c "") with (String a (t +:+ String c "")).
  rewrite pop_back_cons by apply snoc_not_empty. by rewrite IH.
Qed.

Lemma back_is_Some (t : string) : is_Some (back t) <-> t <> "".
Proof.
  split.
  - by intros [c Hc] ->.
  - intros Hne. induction t as [|a t IH]; [done|].
    destruct t as [|a' t]; [by eexists|]. rewrite back_cons by done. by apply IH.
Qed.

(** X15. The camera topic is normalised by one trailing slash.  The
    constructor is defined exactly when the camera topic is not empty (on
    the empty string it reads [back()]); a topic with one trailing slash is
    wired exactly as the topic without it. *)
Theorem camera_topic_trailing_slash (p : Parameters) (t : string) (c : Ascii.ascii) :
  back t = Some c ->
  c <> slash ->
  construct (with_camera_topic p (t +:+ "/")) = construct (with_camera_topic p t)
  /\ is_Some (construct (with_camera_topic p t))
  /\ (forall p', is_Some (construct p') <-> camera_topic p' <> "").
Proof.
  intros Hback Hc. split; [|split].
  - unfold construct, with_camera_topic. cbn [camera_topic base_frame show_detection
      detection_topic computed_pose_topic].
    change "/"%string with (String slash ""). rewrite back_snoc, Hback.
    cbn [mbind option_bind]. rewrite Ascii.eqb_refl, pop_back_snoc.
    apply Ascii.eqb_neq in Hc. by rewrite Hc.
  - unfold construct, with_camera_topic. cbn [camera_topic]. rewrite Hback. cbn. eauto.
  - intros p'. rewrite <- back_is_Some. unfold construct.
    destruct (back (camera_topic p')); cbn [mbind option_bind].
    + split; eauto.
    + split; by intros [? ?].
Qed.

Lemma construct_callbacks (p : Parameters) (w : Wiring) :
  construct p = Some w ->
  map sub_callback (subscriptions w)
  = (if show_detection p then [RgbImageCallback] else [])
    ++ [DepthImageCallback; CameraInfoCallback; DetectionCallback].
Proof.
  unfold construct. destruct (back (camera_topic p)); cbn [mbind option_bind]; [|done].
  intros [= <-]. cbn [subscriptions]. rewrite map_app. by destruct (show_detection p).
Qed.

End ConstructionProperties.

Section WiringProperties.
Context {F : Type} `{Arith F} `{Geometry F}.
Variable mc : list (Candidate F) -> list nat -> string -> PointStamped F -> F -> option nat.
Implicit Types (st : State F).

(** X16. Without [show_detection] the node drops every detection.  The
    constructor subscribes to the colour image only when [show_detection]
    is set, and to no point cloud at all, whereas [detectionCallback]
    returns at once while it has no colour image.  So on a node constructed
    with [show_detection = false] (the default), for every sequence of the
    messages its subscriptions deliver, every handler returns, the colour
    image stays empty, candidates and phase stay as they are, and the only
    events are warnings that no colour image is available, one per
    detection message. *)
Theorem unshown_node_drops_detections (p : Parameters) (w : Wiring) st ms :
  construct p = Some w ->
  show_detection p = false ->
  mat_empty (pixels (rgb_img_ st)) = true ->
  Forall (delivered w) ms ->
  exists st',
    run mc st ms
    = Returned st' (omap (fun m => match m with
                                   | DetectionsMsg _ _ =>
                                       Some (Log WARN "No RGB image available" [])
                                   | _ => None
                                   end) ms)
    /\ rgb_img_ st' = rgb_img_ st
    /\ heap st' = heap st
    /\ candidates_ st' = candidates_ st
    /\ current_phase_ st' = current_phase_ st.
Proof.
  intros Hw Hshow Hrgb Hall. apply construct_callbacks in Hw. rewrite Hshow in Hw.
  revert st Hrgb. induction Hall as [|m ms Hm Hms IH]; intros st Hrgb.
  - exists st. by repeat split.
  - unfold delivered in Hm. rewrite Hw in Hm. cbn [app] in Hm.
    destruct m as [img|img|info|tf msg|tf msg]; cbn [callback_of] in Hm;
      try (by repeat (apply elem_of_cons in Hm as [Hm|Hm]; [done|]);
              apply elem_of_nil in Hm).
    + destruct (IH (depthImageCallback st img)) as (st' & Hrun & H1 & H2 & H3 & H4);
        [exact Hrgb|].
      exists st'. cbn [run handle omap]. rewrite Hrun. by repeat split.
    + destruct (IH (cameraInfoCallback st info)) as (st' & Hrun & H1 & H2 & H3 & H4).
      { unfold cameraInfoCallback. by destruct (negb _). }
      exists st'. cbn [run handle omap]. rewrite Hrun.
      split; [reflexivity|].
      unfold cameraInfoCallback in *. by destruct (negb _).
    + destruct (IH st Hrgb) as (st' & Hrun & H1 & H2 & H3 & H4).
      exists st'. cbn [run handle omap]. unfold detectionCallback. rewrite Hrgb, Hrun.
      by repeat split.
Qed.

End WiringProperties.

(* ================================================================== *)
(** ** Crops *)
(* ================================================================== *)

Section CropProperties.
Context {F : Type} `{Arith F} `{Geometry F}.

Lemma mat_roi_ok {A} (m : Mat A) (x y w h : Z) (crop : Mat A) :
  mat_roi m x y w h = ResOk crop ->
  0 <= x /\ 0 <= w /\ x + w <= mat_cols m /\ 0 <= y /\ 0 <= h /\ y + h <= mat_rows m
  /\ crop = map (fun row => take (Z.to_nat w) (drop (Z.to_nat x) row))
                (take (Z.to_nat h) (drop (Z.to_nat y) m)).
Proof.
  unfold mat_roi, int_add. intros Hroi.
  destruct (negb ((0 <=? x) && (0 <=? w))) eqn:H1; [done|].
  destruct (in_int_range (x + w)); [|done].
  destruct (negb ((x + w <=? mat_cols m) && (0 <=? y) && (0 <=? h))) eqn:H2; [done|].
  destruct (in_int_range (y + h)); [|done].
  destruct (negb (y + h <=? mat_rows m)) eqn:H3; [done|].
  injection Hroi as <-.
  apply negb_false_iff in H1, H2, H3. repeat split; lia.
Qed.

Lemma mat_roi_inside {A} (m : Mat A) (x y w h : Z) :
  mat_cols m < 2 ^ 31 -> mat_rows m < 2 ^ 31 ->
  0 <= x -> 0 <= w -> x + w <= mat_cols m ->
  0 <= y -> 0 <= h -> y + h <= mat_rows m ->
  exists crop, mat_roi m x y w h = ResOk crop.
Proof.
  intros Hc Hr Hx Hw Hxw Hy Hh Hyh. unfold mat_roi, int_add, in_int_range.
  assert (negb ((0 <=? x) && (0 <=? w)) = false) as -> by (apply negb_false_iff; lia).
  assert ((- 2 ^ 31 <=? x + w) && (x + w <? 2 ^ 31) = true) as -> by lia.
  assert (negb ((x + w <=? mat_cols m) && (0 <=? y) && (0 <=? h)) = false) as ->
    by (apply negb_false_iff; lia).
  assert ((- 2 ^ 31 <=? y + h) && (y + h <? 2 ^ 31) = true) as -> by lia.
  assert (negb (y + h <=? mat_rows m) = false) as -> by (apply negb_false_iff; lia).
  eauto.
Qed.


End CropProperties.

(* ================================================================== *)
(** ** The properties on concrete nodes *)
(* ================================================================== *)

Section NodeScenarioFacts.
Import IEEE Tf2 Scenario NodeScenario.

(** The first calibration message on a fresh node. *)
Lemma calibration_feeds_projector_witness :
  haveCalibration_ fresh = false
  /\ length (info_k info0) = 9%nat
  /\ mat_at (K_ (cameraInfoCallback fresh info0)) 1 2 = Some (of_int 240)
  /\ mat_at (K_ (cameraInfoCallback fresh info0)) 3 0 = None
  /\ imgSize_ (cameraInfoCallback fresh info0) = (640, 480).
Proof.
  destruct (calibration_feeds_projector fresh info0 eq_refl eq_refl) as (HK & Hsize & _).
  split; [reflexivity|]. split; [reflexivity|].
  split; [exact (HK 1 2)|]. split; [exact (HK 3 0)|apply Hsize; by vm_compute].
Defined.

(** A centre inside the 4 x 3 image and one just beyond its last column. *)
Lemma extractEstimatedPoint_in_bounds_witness :
  let st := node VISUAL_DETECTION_WITH_DEPTH ramp in
  rectangular ramp 4
  /\ rectangular (K_ st) 3
  /\ length (K_ st) = 3%nat
  /\ is_Some (extractEstimatedPoint st ramp (car_at 3 2 2))
  /\ ~ is_Some (extractEstimatedPoint st ramp (car_at 4 2 2)).
Proof.
  assert (rectangular ramp 4) as Hramp by (unfold rectangular; repeat constructor).
  assert (rectangular (K_ (node VISUAL_DETECTION_WITH_DEPTH ramp)) 3) as HK
    by (unfold rectangular; repeat constructor).
  split; [exact Hramp|]. split; [exact HK|]. split; [reflexivity|]. split.
  - apply (extractEstimatedPoint_in_bounds (node VISUAL_DETECTION_WITH_DEPTH ramp)
             ramp 4 (car_at 3 2 2) Hramp HK eq_refl).
    exists 3, 2. split; [vm_compute; reflexivity|]. split; [lia|]. vm_compute. by split.
  - intros Hsome.
    apply (extractEstimatedPoint_in_bounds (node VISUAL_DETECTION_WITH_DEPTH ramp)
             ramp 4 (car_at 4 2 2) Hramp HK eq_refl) in Hsome
      as (u & v & Hcv & Hu & _).
    vm_compute in Hcv. injection Hcv as <- <-. lia.
Defined.


(** No frame resolves: the 25 points are dropped. *)
Lemma guarded_lookup_failure_drops_cloud_witness :
  let st := tracking ONLY_DEPTH_DETECTION (Some 0%nat) in
  current_phase_ st = ONLY_DEPTH_DETECTION
  /\ tf_none "earth" "lidar" = TfException "no such frame"
  /\ pointCloudCallback tf_none st (lidar_cloud (column 25))
     = Returned st [LogOnce ERROR "Could not transform %s to %s: %s"
                      [ArgStr "earth"; ArgStr "lidar"; ArgStr "no such frame"]].
Proof.
  split; [reflexivity|]. split; [reflexivity|].
  exact (guarded_lookup_failure_drops_cloud tf_none
           (tracking ONLY_DEPTH_DETECTION (Some 0%nat)) (lidar_cloud [])
           "no such frame" eq_refl (or_introl eq_refl) (column 25)).
Defined.

(** A displaced body frame changes nothing. *)
Lemma body_transform_is_not_used_witness :
  let st := tracking ONLY_DEPTH_DETECTION (Some 0%nat) in
  (forall source, tf_identity "earth" source = tf_body_shifted "earth" source)
  /\ tf_identity "base_link" "lidar" <> tf_body_shifted "base_link" "lidar"
  /\ pointCloudCallback tf_identity st mixed_cloud
     = pointCloudCallback tf_body_shifted st mixed_cloud.
Proof.
  split; [reflexivity|]. split; [intros Heq; vm_compute in Heq; discriminate|].
  exact (body_transform_is_not_used tf_identity tf_body_shifted
           (tracking ONLY_DEPTH_DETECTION (Some 0%nat)) mixed_cloud
           (fun _ => eq_refl) I).
Defined.

(** Two cars while looking for a person. *)
Lemma other_classes_are_skipped_witness :
  let st := node VISUAL_DETECTION_WITH_DEPTH [] in
  let msg := mkDetections camera_header [car_at 10 10 4; car_at 20 20 4] in
  mat_empty (pixels (rgb_img_ st)) = false
  /\ show_detection_ st = false
  /\ Forall (other_class (target_detection_ st)) (detections msg)
  /\ detectionCallback match_candidate tf_identity st msg = Returned st [].
Proof.
  assert (Forall (other_class "person") [car_at 10 10 4; car_at 20 20 4]) as Hall.
  { repeat (apply Forall_cons_2; [|try apply Forall_nil_2]);
      exists (mkHypothesis "car" (of_int 1)); (split; [reflexivity|discriminate]). }
  split; [reflexivity|]. split; [reflexivity|]. split; [exact Hall|].
  exact (other_classes_are_skipped match_candidate tf_identity
           (node VISUAL_DETECTION_WITH_DEPTH [])
           (mkDetections camera_header [car_at 10 10 4; car_at 20 20 4])
           eq_refl eq_refl Hall).
Defined.

(** A detection without hypothesis between a car and a person. *)
Lemma detection_without_hypothesis_witness :
  let st := node VISUAL_DETECTION_WITH_DEPTH [] in
  mat_empty (pixels (rgb_img_ st)) = false
  /\ show_detection_ st = false
  /\ Forall (other_class (target_detection_ st)) [car_at 10 10 4]
  /\ results no_hypothesis = []
  /\ detectionCallback match_candidate tf_identity st
       (mkDetections camera_header
          [car_at 10 10 4; no_hypothesis; person_at 320 240 (of_int 1)])
     = Undefined.
Proof.
  assert (Forall (other_class "person") [car_at 10 10 4]) as Hall.
  { repeat (apply Forall_cons_2; [|try apply Forall_nil_2]);
      exists (mkHypothesis "car" (of_int 1)); (split; [reflexivity|discriminate]). }
  split; [reflexivity|]. split; [reflexivity|]. split; [exact Hall|].
  split; [reflexivity|].
  exact (detection_without_hypothesis match_candidate tf_identity
           (node VISUAL_DETECTION_WITH_DEPTH []) camera_header
           [car_at 10 10 4] no_hypothesis [person_at 320 240 (of_int 1)]
           eq_refl eq_refl Hall eq_refl).
Defined.

(** A car with a 10 x 10 box centred at [(10, 10)] on a viewer node. *)
Lemma every_detection_is_drawn_witness :
  let box := ((5, 5), (15, 15)) in
  let img := mkImage [[(0, 0, 0)]] [Rectangle (5, 5) (15, 15); PutText "3" (5, 5)] in
  mat_empty (pixels (rgb_img_ viewer)) = false
  /\ show_detection_ viewer = true
  /\ detection_box (car_at 10 10 10) = Some box
  /\ other_class (target_detection_ viewer) (car_at 10 10 10)
  /\ detectionCallback match_candidate tf_identity viewer
       (mkDetections camera_header [car_at 10 10 10])
     = Returned (set_rgb_img img viewer) [ShowImage "RGB Image" img].
Proof.
  assert (@detection_box double _ (car_at 10 10 10) = Some ((5, 5), (15, 15))) as Hbox
    by (vm_compute; reflexivity).
  assert (other_class "person" (car_at 10 10 10)) as Hother.
  { exists (mkHypothesis "car" (of_int 1)). split; [reflexivity|discriminate]. }
  split; [reflexivity|]. split; [reflexivity|]. split; [exact Hbox|].
  split; [exact Hother|].
  apply (every_detection_is_drawn match_candidate tf_identity viewer camera_header
           [(car_at 10 10 10, ((5, 5), (15, 15)))] eq_refl eq_refl).
  apply Forall_cons_2; [split; [exact Hbox|exact Hother]|apply Forall_nil_2].
Defined.

(** A second calibration message, a depth image and a colour image on a
    calibrated node. *)
Lemma calibration_is_frozen_witness :
  let st := node ONLY_DEPTH_DETECTION [] in
  haveCalibration_ st = true
  /\ exists st' ev,
       run match_candidate st
         [CameraInfoMsg info1; DepthImageMsg ramp; RgbImageMsg [[(1, 1, 1)]];
          CameraInfoMsg info1]
       = Returned st' ev
       /\ K_ st' = K0 /\ D_ st' = [] /\ imgSize_ st' = (640, 480)
       /\ haveCalibration_ st' = true.
Proof.
  split; [reflexivity|].
  pose proof (calibration_is_frozen match_candidate (node ONLY_DEPTH_DETECTION [])
                [CameraInfoMsg info1; DepthImageMsg ramp; RgbImageMsg [[(1, 1, 1)]];
                 CameraInfoMsg info1] eq_refl) as Hfrozen.
  destruct (run _ _ _) as [st' ev|what st' ev|] eqn:Hrun.
  - exists st', ev. split; [reflexivity|exact Hfrozen].
  - vm_compute in Hrun. discriminate.
  - vm_compute in Hrun. discriminate.
Defined.

(** The default topic with and without a trailing slash. *)
Lemma camera_topic_trailing_slash_witness :
  back "camera" = Some (Ascii.ascii_of_nat 97)
  /\ Ascii.ascii_of_nat 97 <> slash
  /\ construct (with_camera_topic default_parameters "camera/")
     = construct default_parameters
  /\ is_Some (construct default_parameters)
  /\ ~ is_Some (construct (with_camera_topic default_parameters "")).
Proof.
  assert (Ascii.ascii_of_nat 97 <> slash) as Hne by (intros Heq; cbv in Heq; discriminate).
  destruct (camera_topic_trailing_slash default_parameters "camera"
              (Ascii.ascii_of_nat 97) eq_refl Hne) as (Heq & Hsome & Hiff).
  split; [reflexivity|]. split; [exact Hne|]. split; [exact Heq|].
  split; [exact Hsome|].
  intros Hempty. by apply Hiff in Hempty.
Defined.

(** The node with its default parameters: a depth image, the calibration
    and two detection messages. *)
Lemma unshown_node_drops_detections_witness :
  let ms := [DepthImageMsg ramp; CameraInfoMsg info0;
             DetectionsMsg tf_identity person_msg;
             DetectionsMsg tf_identity person_msg] in
  exists w,
    construct default_parameters = Some w
    /\ show_detection default_parameters = false
    /\ mat_empty (pixels (rgb_img_ fresh)) = true
    /\ Forall (delivered w) ms
    /\ exists st',
         run match_candidate fresh ms
         = Returned st' [Log WARN "No RGB image available" [];
                         Log WARN "No RGB image available" []]
         /\ candidates_ st' = [].
Proof.
  intros ms.
  destruct (construct default_parameters) as [w|] eqn:Hw; [|vm_compute in Hw; discriminate].
  exists w. split; [reflexivity|]. split; [reflexivity|]. split; [reflexivity|].
  assert (Forall (delivered w) ms) as Hall; [|split; [exact Hall|]].
  { unfold ms. repeat (apply Forall_cons_2; [|try apply Forall_nil_2]);
      unfold delivered; rewrite (construct_callbacks _ _ Hw); cbn; repeat constructor. }
  destruct (unshown_node_drops_detections match_candidate default_parameters w fresh ms
              Hw eq_refl eq_refl Hall) as (st' & Hrun & _ & _ & Hcands & _).
  exists st'. split; [exact Hrun|exact Hcands].
Defined.


End NodeScenarioFacts.
